(* ===================================================================== *)
(* Equipment lending service: reservation engine and request lifecycle   *)
(*                                                                       *)
(* A shallow embedding of                                                *)
(*   src/equipment_lending/models.py       (Equipment, BorrowRequest)    *)
(*   src/equipment_lending/serializers.py  (EquipmentSerializer,         *)
(*                                          BorrowRequestSerializer)     *)
(*   src/equipment_lending/views.py        (EquipmentViewSet,            *)
(*                                          BorrowRequestViewSet)        *)
(* The two database tables are finite maps keyed by primary key; every    *)
(* view is a function from the database to a response and a database.    *)
(* Datetimes are integers (an instant on the clock's own grid), and       *)
(* `timezone.now()` is the argument `now` of the handler that reads it.   *)
(* Handlers are modelled past the permission gate of permissions.py, on   *)
(* calls without list-filter query parameters: approve, reject and issue  *)
(* are reached by staff and admin only, whose queryset is the whole       *)
(* table; return_equipment is reached by any authenticated user and looks *)
(* its request up in the queryset of that user.                           *)
(* ===================================================================== *)

From stdpp Require Import gmap strings list fin_maps pretty.
From Stdlib Require Import ZArith Lia.

Local Open Scope Z_scope.

(* --------------------------------------------------------------------- *)
(* models.py                                                             *)
(* --------------------------------------------------------------------- *)

(** BorrowRequest.STATUS_CHOICES *)
Inductive Status :=
  | pending | approved | rejected | issued | returned | overdue | cancelled.

#[global] Instance Status_eq_dec : EqDecision Status.
Proof. solve_decision. Defined.

(** User.ROLE_CHOICES *)
Inductive Role :=
  | student | staff | admin.

#[global] Instance Role_eq_dec : EqDecision Role.
Proof. solve_decision. Defined.

(** class User: the primary key and the role, the two columns the views
    and permissions read. *)
Record User := mkUser {
  user_id : Z;
  role : Role
}.

(** Equipment.CONDITION_CHOICES *)
Inductive Condition :=
  | excellent | good | fair | poor | maintenance.

(** class Equipment.  The descriptive columns that no handler below reads
    or writes (category, description, serial_number, location,
    purchase_date) are left out. *)
Record Equipment := mkEquipment {
  name : string;
  condition : Condition;
  total_quantity : Z;
  available_quantity : Z;
  is_active : bool;
  created_at : Z;
  updated_at : Z
}.

(** class BorrowRequest.  [user], [equipment] and [approved_by] hold the
    primary key of the row they refer to ([equipment r] is what the ORM
    calls equipment_id). *)
Record BorrowRequest := mkBorrowRequest {
  user : Z;
  equipment : Z;
  quantity : Z;
  purpose : string;
  status : Status;
  requested_date : Z;
  borrow_from : Z;
  borrow_until : Z;
  approved_by : option Z;
  approved_date : option Z;
  issued_date : option Z;
  returned_date : option Z;
  rejection_reason : string;
  notes : string
}.

(** The database: the two tables and their primary-key sequences. *)
Record DB := mkDB {
  Equipment_objects : gmap Z Equipment;
  BorrowRequest_objects : gmap Z BorrowRequest;
  Equipment_next_pk : Z;
  BorrowRequest_next_pk : Z
}.

(* Attribute assignments on a model instance. *)

Definition set_available_quantity (v : Z) (e : Equipment) : Equipment :=
  mkEquipment (name e) (condition e) (total_quantity e) v (is_active e)
              (created_at e) (updated_at e).

Definition set_updated_at (v : Z) (e : Equipment) : Equipment :=
  mkEquipment (name e) (condition e) (total_quantity e) (available_quantity e)
              (is_active e) (created_at e) v.

Definition set_status (v : Status) (r : BorrowRequest) : BorrowRequest :=
  mkBorrowRequest (user r) (equipment r) (quantity r) (purpose r) v
    (requested_date r) (borrow_from r) (borrow_until r) (approved_by r)
    (approved_date r) (issued_date r) (returned_date r) (rejection_reason r)
    (notes r).

Definition set_approved_by (v : option Z) (r : BorrowRequest) : BorrowRequest :=
  mkBorrowRequest (user r) (equipment r) (quantity r) (purpose r) (status r)
    (requested_date r) (borrow_from r) (borrow_until r) v
    (approved_date r) (issued_date r) (returned_date r) (rejection_reason r)
    (notes r).

Definition set_approved_date (v : option Z) (r : BorrowRequest) : BorrowRequest :=
  mkBorrowRequest (user r) (equipment r) (quantity r) (purpose r) (status r)
    (requested_date r) (borrow_from r) (borrow_until r) (approved_by r)
    v (issued_date r) (returned_date r) (rejection_reason r) (notes r).

Definition set_issued_date (v : option Z) (r : BorrowRequest) : BorrowRequest :=
  mkBorrowRequest (user r) (equipment r) (quantity r) (purpose r) (status r)
    (requested_date r) (borrow_from r) (borrow_until r) (approved_by r)
    (approved_date r) v (returned_date r) (rejection_reason r) (notes r).

Definition set_returned_date (v : option Z) (r : BorrowRequest) : BorrowRequest :=
  mkBorrowRequest (user r) (equipment r) (quantity r) (purpose r) (status r)
    (requested_date r) (borrow_from r) (borrow_until r) (approved_by r)
    (approved_date r) (issued_date r) v (rejection_reason r) (notes r).

Definition set_rejection_reason (v : string) (r : BorrowRequest) : BorrowRequest :=
  mkBorrowRequest (user r) (equipment r) (quantity r) (purpose r) (status r)
    (requested_date r) (borrow_from r) (borrow_until r) (approved_by r)
    (approved_date r) (issued_date r) (returned_date r) v (notes r).

Definition set_notes (v : string) (r : BorrowRequest) : BorrowRequest :=
  mkBorrowRequest (user r) (equipment r) (quantity r) (purpose r) (status r)
    (requested_date r) (borrow_from r) (borrow_until r) (approved_by r)
    (approved_date r) (issued_date r) (returned_date r) (rejection_reason r) v.

(** Model.save as the two models use it.  An instance without a primary
    key is inserted under the next value of the table's sequence and its
    auto_now_add column is stamped; an instance with one overwrites its
    row.  The primary key of the written row and the instance as it was
    written are returned with the database. *)

Definition write_equipment (now : Z) (pk : option Z) (e : Equipment) (db : DB)
    : Z * Equipment * DB :=
  match pk with
  | Some k =>
      let e := set_updated_at now e in
      (k, e, mkDB (<[k := e]> (Equipment_objects db))
                  (BorrowRequest_objects db)
                  (Equipment_next_pk db) (BorrowRequest_next_pk db))
  | None =>
      let k := Equipment_next_pk db in
      let e := mkEquipment (name e) (condition e) (total_quantity e)
                 (available_quantity e) (is_active e) now now in
      (k, e, mkDB (<[k := e]> (Equipment_objects db)) (BorrowRequest_objects db)
                  (k + 1) (BorrowRequest_next_pk db))
  end.

(** Equipment.save:
      if self.available_quantity > self.total_quantity:
          self.available_quantity = self.total_quantity
      super().save(...) *)
Definition Equipment_save (now : Z) (pk : option Z) (self : Equipment) (db : DB)
    : Z * Equipment * DB :=
  let self :=
    if available_quantity self >? total_quantity self
    then set_available_quantity (total_quantity self) self
    else self in
  write_equipment now pk self db.

(** BorrowRequest.save (the model does not override it);
    [requested_date] is the auto_now_add column. *)
Definition BorrowRequest_save (now : Z) (pk : option Z) (self : BorrowRequest)
    (db : DB) : Z * BorrowRequest * DB :=
  match pk with
  | Some k =>
      (k, self,
       mkDB (Equipment_objects db) (<[k := self]> (BorrowRequest_objects db))
            (Equipment_next_pk db) (BorrowRequest_next_pk db))
  | None =>
      let k := BorrowRequest_next_pk db in
      let r := mkBorrowRequest (user self) (equipment self) (quantity self)
                 (purpose self) (status self) now (borrow_from self)
                 (borrow_until self) (approved_by self) (approved_date self)
                 (issued_date self) (returned_date self)
                 (rejection_reason self) (notes self) in
      (k, r,
       mkDB (Equipment_objects db) (<[k := r]> (BorrowRequest_objects db))
            (Equipment_next_pk db) (k + 1))
  end.

(** Python's built-in sum: a left fold from 0. *)
Definition py_sum (l : list Z) : Z := fold_left Z.add l 0.

(** status__in=[...] *)
Definition status_in (s : Status) (l : list Status) : bool :=
  bool_decide (s ∈ l).

(** The keyword arguments of the [filter] call in check_availability and
    in the availability view, which are the same four lookups:
      equipment=..., status__in=['approved', 'issued'],
      borrow_from__lt=until, borrow_until__gt=from *)
Definition overlapping_lookup (equipment_pk : Z) (from until : Z)
    (row : Z * BorrowRequest) : bool :=
  (equipment row.2 =? equipment_pk)
  && status_in (status row.2) [approved; issued]
  && (borrow_from row.2 <? until)
  && (borrow_until row.2 >? from).

(** .exclude(pk=self.pk); an unsaved instance has pk None, and no row has
    a null primary key, so nothing is excluded then. *)
Definition exclude_pk (pk : option Z) (row : Z * BorrowRequest) : bool :=
  match pk with
  | Some p => negb (row.1 =? p)
  | None => true
  end.

(** BorrowRequest.check_availability.  [self_pk] is self.pk and
    [self_equipment] is the instance self.equipment, whose key is
    [equipment self]. *)
Definition check_availability (db : DB) (self_pk : option Z)
    (self : BorrowRequest) (self_equipment : Equipment) : bool :=
  let overlapping :=
    List.filter (exclude_pk self_pk)
      (List.filter
         (overlapping_lookup (equipment self) (borrow_from self) (borrow_until self))
         (map_to_list (BorrowRequest_objects db))) in
  let borrowed_quantity := py_sum (List.map (λ req, quantity req.2) overlapping) in
  let available := total_quantity self_equipment - borrowed_quantity in
  available >=? quantity self.

(* --------------------------------------------------------------------- *)
(* HTTP responses                                                        *)
(* --------------------------------------------------------------------- *)

Inductive Body :=
  | ErrorBody (error : string)
      (* Response({'error': ...}) *)
  | ValidationErrorBody (detail : string)
      (* a raised serializers.ValidationError, rendered by the framework *)
  | FieldErrorBody (field : string)
      (* a failure of a validator generated from the model field *)
  | NotFoundBody
      (* get_object found no row *)
  | BorrowRequestBody (pk : Z) (r : BorrowRequest)
  | EquipmentBody (pk : Z) (e : Equipment)
  | AvailabilityBody (equipment_id total available : Z) (start end_ : string).

Record Response := mkResponse {
  data : Body;
  status_code : Z
}.

Definition HTTP_200_OK : Z := 200.
Definition HTTP_201_CREATED : Z := 201.
Definition HTTP_400_BAD_REQUEST : Z := 400.
Definition HTTP_404_NOT_FOUND : Z := 404.
Definition HTTP_409_CONFLICT : Z := 409.

(* --------------------------------------------------------------------- *)
(* serializers.py                                                        *)
(* --------------------------------------------------------------------- *)

(** What a serializer raises. *)
Inductive ValidationError :=
  | FieldError (field : string)
  | NonFieldError (detail : string).

Definition error_response (e : ValidationError) : Response :=
  match e with
  | FieldError f => mkResponse (FieldErrorBody f) HTTP_400_BAD_REQUEST
  | NonFieldError d => mkResponse (ValidationErrorBody d) HTTP_400_BAD_REQUEST
  end.

(** The writable fields of EquipmentSerializer as a client sends them,
    and [available_quantity], which a client may send although it is in
    read_only_fields. *)
Record EquipmentInput := mkEquipmentInput {
  in_name : string;
  in_condition : Condition;
  in_total_quantity : Z;
  in_available_quantity : option Z;
  in_is_active : bool
}.

(** validated_data of EquipmentSerializer after is_valid: the writable
    fields only. *)
Record EquipmentValidated := mkEquipmentValidated {
  v_name : string;
  v_condition : Condition;
  v_total_quantity : Z;
  v_is_active : bool
}.

(** EquipmentSerializer.is_valid: the generated field validators
    (name not blank, MinValueValidator(1) on total_quantity); a field in
    read_only_fields is not copied into validated_data. *)
Definition EquipmentSerializer_is_valid (inp : EquipmentInput)
    : ValidationError + EquipmentValidated :=
  if bool_decide (in_name inp = "") then inl (FieldError "name")
  else if in_total_quantity inp <? 1 then inl (FieldError "total_quantity")
  else inr (mkEquipmentValidated (in_name inp) (in_condition inp)
              (in_total_quantity inp) (in_is_active inp)).

(** EquipmentSerializer.create:
      validated_data['available_quantity'] = validated_data['total_quantity']
      return super().create(validated_data)
    The base create builds the instance from the dict and saves it. *)
Definition EquipmentSerializer_create (now : Z) (validated_data : EquipmentValidated)
    (db : DB) : Z * Equipment * DB :=
  let validated_available_quantity := v_total_quantity validated_data in
  Equipment_save now None
    (mkEquipment (v_name validated_data) (v_condition validated_data)
       (v_total_quantity validated_data) validated_available_quantity
       (v_is_active validated_data) now now) db.

(** The writable fields of BorrowRequestSerializer as a client sends them,
    in a payload that carries every field validate reads ([in_purpose]
    after the framework's trimming). *)
Record BorrowRequestInput := mkBorrowRequestInput {
  in_equipment : Z;
  in_quantity : Z;
  in_purpose : string;
  in_borrow_from : Z;
  in_borrow_until : Z;
  in_rejection_reason : string;
  in_notes : string
}.

(** The generated field validators of BorrowRequestSerializer: the
    equipment key must name a row (it is replaced by the instance),
    MinValueValidator(1) on quantity, purpose not blank. *)
Definition BorrowRequestSerializer_fields (db : DB) (inp : BorrowRequestInput)
    : ValidationError + Equipment :=
  match Equipment_objects db !! in_equipment inp with
  | None => inl (FieldError "equipment")
  | Some e =>
      if in_quantity inp <? 1 then inl (FieldError "quantity")
      else if bool_decide (in_purpose inp = "") then inl (FieldError "purpose")
      else inr e
  end.

Definition msg_return_after_borrow : string :=
  "Return date must be after borrow date".
Definition msg_borrow_in_past : string :=
  "Borrow date cannot be in the past".
Definition msg_exceeds_total (total : Z) : string :=
  "Requested quantity exceeds total quantity (" +:+ pretty total +:+ ")".
Definition msg_not_available_create : string :=
  "Equipment not available for the requested period".

(** BorrowRequestSerializer.validate; [equipment] is data['equipment']. *)
Definition BorrowRequestSerializer_validate (now : Z) (data : BorrowRequestInput)
    (equipment : Equipment) : ValidationError + BorrowRequestInput :=
  if in_borrow_until data <=? in_borrow_from data
  then inl (NonFieldError msg_return_after_borrow)
  else if in_borrow_from data <? now
  then inl (NonFieldError msg_borrow_in_past)
  else if in_quantity data >? total_quantity equipment
  then inl (NonFieldError (msg_exceeds_total (total_quantity equipment)))
  else inr data.

(** serializer.is_valid: field validators first, validate() only when
    they all pass. *)
Definition BorrowRequestSerializer_is_valid (db : DB) (now : Z)
    (inp : BorrowRequestInput) : ValidationError + (BorrowRequestInput * Equipment) :=
  match BorrowRequestSerializer_fields db inp with
  | inl e => inl e
  | inr equipment =>
      match BorrowRequestSerializer_validate now inp equipment with
      | inl e => inl e
      | inr data => inr (data, equipment)
      end
  end.

(** BorrowRequestSerializer.create; [request_user] is
    self.context['request'].user.  The instance gets the model defaults for
    the fields that are read-only in the serializer. *)
Definition BorrowRequestSerializer_create (db : DB) (now : Z) (request_user : Z)
    (validated_data : BorrowRequestInput) (equipment : Equipment)
    : ValidationError + (Z * BorrowRequest * DB) :=
  let request :=
    mkBorrowRequest request_user (in_equipment validated_data)
      (in_quantity validated_data) (in_purpose validated_data) pending now
      (in_borrow_from validated_data) (in_borrow_until validated_data)
      None None None None
      (in_rejection_reason validated_data) (in_notes validated_data) in
  if negb (check_availability db None request equipment)
  then inl (NonFieldError msg_not_available_create)
  else
    inr (BorrowRequest_save now None request db).

(* --------------------------------------------------------------------- *)
(* views.py                                                              *)
(* --------------------------------------------------------------------- *)

(** EquipmentViewSet.create (the framework's): is_valid, then the
    serializer's create, then 201. *)
Definition EquipmentViewSet_create (now : Z) (inp : EquipmentInput) (db : DB)
    : Response * DB :=
  match EquipmentSerializer_is_valid inp with
  | inl e => (error_response e, db)
  | inr validated_data =>
      let '(pk, e, db') := EquipmentSerializer_create now validated_data db in
      (mkResponse (EquipmentBody pk e) HTTP_201_CREATED, db')
  end.

Section AvailabilityView.

(** datetime.fromisoformat of the standard library; [None] when it
    raises ValueError. *)
Variable fromisoformat : string → option Z.

(** `not s` for a query parameter: absent or the empty string. *)
Definition py_not (s : option string) : bool :=
  match s with
  | None => true
  | Some v => bool_decide (v = "")
  end.

(** EquipmentViewSet.availability; [start] and [end_] are
    request.query_params.get('start') and .get('end'). *)
Definition availability (pk : Z) (start end_ : option string) (db : DB)
    : Response :=
  match Equipment_objects db !! pk with
  | None => mkResponse NotFoundBody HTTP_404_NOT_FOUND
  | Some equipment =>
      if py_not start || py_not end_
      then mkResponse (ErrorBody "start and end parameters required")
                      HTTP_400_BAD_REQUEST
      else
        match start, end_ with
        | Some start, Some end_ =>
            match fromisoformat start, fromisoformat end_ with
            | Some start_date, Some end_date =>
                let overlapping :=
                  List.filter (overlapping_lookup pk start_date end_date)
                    (map_to_list (BorrowRequest_objects db)) in
                let borrowed_quantity :=
                  py_sum (List.map (λ req, quantity req.2) overlapping) in
                let available := total_quantity equipment - borrowed_quantity in
                mkResponse
                  (AvailabilityBody pk (total_quantity equipment) available
                     start end_)
                  HTTP_200_OK
            | _, _ =>
                mkResponse (ErrorBody "Invalid date format") HTTP_400_BAD_REQUEST
            end
        | _, _ =>
            mkResponse (ErrorBody "start and end parameters required")
                       HTTP_400_BAD_REQUEST
        end
  end.

End AvailabilityView.

(** BorrowRequestViewSet.get_object: the queryset is
    BorrowRequest.objects.select_related('user', 'equipment', ...), so the
    row comes joined with its equipment row. *)
Definition get_object (db : DB) (pk : Z) : option (BorrowRequest * Equipment) :=
  match BorrowRequest_objects db !! pk with
  | None => None
  | Some borrow_request =>
      match Equipment_objects db !! equipment borrow_request with
      | None => None
      | Some e => Some (borrow_request, e)
      end
  end.

Definition not_found : Response := mkResponse NotFoundBody HTTP_404_NOT_FOUND.

(** get_object on the queryset of BorrowRequestViewSet.get_queryset for
    [request_user]:
      if user.role == 'student':
          queryset = queryset.filter(user=user)
    so a student finds own requests only. *)
Definition get_object_as (request_user : User) (db : DB) (pk : Z)
    : option (BorrowRequest * Equipment) :=
  match get_object db pk with
  | None => None
  | Some (borrow_request, e) =>
      if bool_decide (role request_user = student)
      then if user borrow_request =? user_id request_user
           then Some (borrow_request, e)
           else None
      else Some (borrow_request, e)
  end.

(** BorrowRequestViewSet.create (the framework's): is_valid, then the
    serializer's create, then 201; a ValidationError raised by either
    becomes a 400. *)
Definition BorrowRequestViewSet_create (now : Z) (request_user : Z)
    (inp : BorrowRequestInput) (db : DB) : Response * DB :=
  match BorrowRequestSerializer_is_valid db now inp with
  | inl e => (error_response e, db)
  | inr (validated_data, equipment) =>
      match BorrowRequestSerializer_create db now request_user validated_data
              equipment with
      | inl e => (error_response e, db)
      | inr (pk, r, db') =>
          (mkResponse (BorrowRequestBody pk r) HTTP_201_CREATED, db')
      end
  end.

(** BorrowRequestViewSet.approve *)
Definition approve (now : Z) (request_user : Z) (pk : Z) (db : DB)
    : Response * DB :=
  match get_object db pk with
  | None => (not_found, db)
  | Some (borrow_request, equipment) =>
      if negb (bool_decide (status borrow_request = pending))
      then (mkResponse (ErrorBody "Only pending requests can be approved")
                       HTTP_400_BAD_REQUEST, db)
      else if negb (check_availability db (Some pk) borrow_request equipment)
      then (mkResponse (ErrorBody "Equipment not available for requested period")
                       HTTP_400_BAD_REQUEST, db)
      else
        let borrow_request := set_status approved borrow_request in
        let borrow_request := set_approved_by (Some request_user) borrow_request in
        let borrow_request := set_approved_date (Some now) borrow_request in
        let '(_, _, db) := BorrowRequest_save now (Some pk) borrow_request db in
        (mkResponse (BorrowRequestBody pk borrow_request) HTTP_200_OK, db)
  end.

(** BorrowRequestViewSet.reject; [reason] is
    request.data.get('reason', ''). *)
Definition reject (now : Z) (request_user : Z) (pk : Z) (reason : string)
    (db : DB) : Response * DB :=
  match get_object db pk with
  | None => (not_found, db)
  | Some (borrow_request, _) =>
      if negb (bool_decide (status borrow_request = pending))
      then (mkResponse (ErrorBody "Only pending requests can be rejected")
                       HTTP_400_BAD_REQUEST, db)
      else
        let borrow_request := set_status rejected borrow_request in
        let borrow_request := set_rejection_reason reason borrow_request in
        let borrow_request := set_approved_by (Some request_user) borrow_request in
        let borrow_request := set_approved_date (Some now) borrow_request in
        let '(_, _, db) := BorrowRequest_save now (Some pk) borrow_request db in
        (mkResponse (BorrowRequestBody pk borrow_request) HTTP_200_OK, db)
  end.

(** BorrowRequestViewSet.issue *)
Definition issue (now : Z) (pk : Z) (db : DB) : Response * DB :=
  match get_object db pk with
  | None => (not_found, db)
  | Some (borrow_request, e) =>
      if negb (bool_decide (status borrow_request = approved))
      then (mkResponse (ErrorBody "Only approved requests can be issued")
                       HTTP_400_BAD_REQUEST, db)
      else
      let equipment_id := equipment borrow_request in
      let equipment := e in
      if available_quantity equipment <? quantity borrow_request
      then (mkResponse (ErrorBody "Insufficient equipment quantity")
                       HTTP_400_BAD_REQUEST, db)
      else
        let equipment :=
          set_available_quantity
            (available_quantity equipment - quantity borrow_request) equipment in
        let '(_, _, db) :=
          Equipment_save now (Some equipment_id) equipment db in
        let borrow_request := set_status issued borrow_request in
        let borrow_request := set_issued_date (Some now) borrow_request in
        let '(_, _, db) := BorrowRequest_save now (Some pk) borrow_request db in
        (mkResponse (BorrowRequestBody pk borrow_request) HTTP_200_OK, db)
  end.

(** `if notes:` on a string: true unless it is empty. *)
Definition py_truthy (s : string) : bool := negb (bool_decide (s = "")).

(** BorrowRequestViewSet.return_equipment; [request_user] is request.user
    and [notes_arg] is request.data.get('notes', '').  get_permissions
    names the action 'return', so this action falls to IsAuthenticated and
    the caller may have any role. *)
Definition return_equipment (now : Z) (request_user : User) (pk : Z)
    (notes_arg : string) (db : DB) : Response * DB :=
  match get_object_as request_user db pk with
  | None => (not_found, db)
  | Some (borrow_request, e) =>
      if negb (status_in (status borrow_request) [issued; overdue])
      then (mkResponse (ErrorBody "Only issued requests can be returned")
                       HTTP_400_BAD_REQUEST, db)
      else
        let equipment_id := equipment borrow_request in
        let equipment := e in
        let equipment :=
          set_available_quantity
            (available_quantity equipment + quantity borrow_request) equipment in
        let '(_, _, db) :=
          Equipment_save now (Some equipment_id) equipment db in
        let borrow_request := set_status returned borrow_request in
        let borrow_request := set_returned_date (Some now) borrow_request in
        let borrow_request :=
          if py_truthy notes_arg then set_notes notes_arg borrow_request
          else borrow_request in
        let '(_, _, db) := BorrowRequest_save now (Some pk) borrow_request db in
        (mkResponse (BorrowRequestBody pk borrow_request) HTTP_200_OK, db)
  end.

(* --------------------------------------------------------------------- *)
(* Sequences of lifecycle calls                                          *)
(* --------------------------------------------------------------------- *)

(** One call of the request lifecycle, with its arguments. *)
Inductive Call :=
  | CreateRequest (request_user : Z) (inp : BorrowRequestInput)
  | Approve (request_user : Z) (pk : Z)
  | Reject (request_user : Z) (pk : Z) (reason : string)
  | Issue (pk : Z)
  | ReturnEquipment (request_user : User) (pk : Z) (notes_arg : string).

(** The handler of a call, run at clock reading [now]. *)
Definition handle (now : Z) (c : Call) (db : DB) : Response * DB :=
  match c with
  | CreateRequest u inp => BorrowRequestViewSet_create now u inp db
  | Approve u pk => approve now u pk db
  | Reject u pk reason => reject now u pk reason db
  | Issue pk => issue now pk db
  | ReturnEquipment u pk n => return_equipment now u pk n db
  end.

(** Calls executed one after the other, each with the clock reading it
    runs at; the database after the last one. *)
Fixpoint run (calls : list (Z * Call)) (db : DB) : DB :=
  match calls with
  | [] => db
  | (now, c) :: rest => run rest (handle now c db).2
  end.

(* ===================================================================== *)
(* Sums of quantities over a table                                       *)
(* ===================================================================== *)

(** The quantity a row adds to a sum restricted to the rows passing [P]. *)
Definition weight (P : Z * BorrowRequest → bool) (row : Z * BorrowRequest) : Z :=
  if P row then quantity row.2 else 0.

Definition weighted_sum (P : Z * BorrowRequest → bool)
    (l : list (Z * BorrowRequest)) : Z :=
  foldr (λ row acc, weight P row + acc) 0 l.

Definition table_sum (P : Z * BorrowRequest → bool)
    (m : gmap Z BorrowRequest) : Z :=
  weighted_sum P (map_to_list m).

(* ===================================================================== *)
(* Specification vocabulary                                              *)
(* ===================================================================== *)

(** The half-open interval [borrow_from, borrow_until) of a request covers
    the instant [t]. *)
Definition covers (r : BorrowRequest) (t : Z) : bool :=
  (borrow_from r <=? t) && (t <? borrow_until r).

(** A row is a commitment on equipment [equipment_pk] at instant [t]. *)
Definition committed_lookup (equipment_pk t : Z) (row : Z * BorrowRequest) : bool :=
  (equipment row.2 =? equipment_pk)
  && status_in (status row.2) [approved; issued]
  && covers row.2 t.

(** The quantity of equipment [equipment_pk] committed at instant [t]. *)
Definition committed_at (db : DB) (equipment_pk t : Z) : Z :=
  table_sum (committed_lookup equipment_pk t) (BorrowRequest_objects db).

(** The capacity invariant of the data model. *)
Definition capacity_invariant (db : DB) : Prop :=
  ∀ pk e t, Equipment_objects db !! pk = Some e →
    committed_at db pk t ≤ total_quantity e.

(** MinValueValidator(1) on BorrowRequest.quantity holds of every row. *)
Definition quantities_valid (db : DB) : Prop :=
  ∀ pk r, BorrowRequest_objects db !! pk = Some r → 1 ≤ quantity r.

(** The counter invariant of the data model. *)
Definition counter_invariant (db : DB) : Prop :=
  ∀ pk e, Equipment_objects db !! pk = Some e →
    0 ≤ available_quantity e ≤ total_quantity e.

(** Overlap of a stored interval with a candidate interval, in the words
    of the specification. *)
Definition overlaps (stored_from stored_until cand_from cand_until : Z) : Prop :=
  stored_from < cand_until ∧ stored_until > cand_from.

(** The stored rows the specification counts against a candidate. *)
Definition counted (equipment_pk cand_from cand_until : Z) (exclude : option Z)
    (pk : Z) (stored : BorrowRequest) : Prop :=
  equipment stored = equipment_pk
  ∧ (status stored = approved ∨ status stored = issued)
  ∧ overlaps (borrow_from stored) (borrow_until stored) cand_from cand_until
  ∧ exclude ≠ Some pk.

#[global] Instance counted_dec equipment_pk cand_from cand_until exclude pk stored :
  Decision (counted equipment_pk cand_from cand_until exclude pk stored).
Proof. unfold counted, overlaps. apply _. Defined.

(** The overlapping sum of the specification: a fold over the table that
    adds the quantity of every counted row. *)
Definition overlapping_sum (db : DB) (equipment_pk cand_from cand_until : Z)
    (exclude : option Z) : Z :=
  map_fold
    (λ pk stored acc,
       if decide (counted equipment_pk cand_from cand_until exclude pk stored)
       then quantity stored + acc else acc)
    0 (BorrowRequest_objects db).

(** The database with one request row removed, and with another request
    table. *)
Definition without_request (pk : Z) (db : DB) : DB :=
  mkDB (Equipment_objects db) (delete pk (BorrowRequest_objects db))
       (Equipment_next_pk db) (BorrowRequest_next_pk db).

(** The same payload with another client-supplied available_quantity. *)
Definition with_available_quantity (supplied : option Z) (inp : EquipmentInput)
    : EquipmentInput :=
  mkEquipmentInput (in_name inp) (in_condition inp) (in_total_quantity inp)
    supplied (in_is_active inp).

Definition with_requests (tbl : gmap Z BorrowRequest) (db : DB) : DB :=
  mkDB (Equipment_objects db) tbl (Equipment_next_pk db) (BorrowRequest_next_pk db).

(** A database of one equipment row of total 1 and two approved requests
    of quantity 1 on it, both over [a, b). *)
Definition doubly_committed (a b : Z) : DB :=
  let e := mkEquipment "projector" good 1 1 true 0 0 in
  let r := mkBorrowRequest 7 1 1 "lecture" approved 0 a b
             (Some 9) (Some 0) None None "" "" in
  mkDB {[1 := e]} (<[2 := r]> {[1 := r]}) 2 3.

(** A database of one equipment row of total 5 and two approved requests
    of quantity 5 on it, over [1, 2) and [2, 3). *)
Definition back_to_back : DB :=
  let e := mkEquipment "projector" good 5 5 true 0 0 in
  let r1 := mkBorrowRequest 7 1 5 "lecture" approved 0 1 2
              (Some 9) (Some 0) None None "" "" in
  let r2 := mkBorrowRequest 8 1 5 "seminar" approved 0 2 3
              (Some 9) (Some 0) None None "" "" in
  mkDB {[1 := e]} (<[2 := r2]> {[1 := r1]}) 2 3.

(** "Appends the supplied notes": the notes after a return are the notes
    before it followed by the supplied ones. *)
Definition notes_appended (before after : BorrowRequest) (notes_arg : string) : Prop :=
  notes after = notes before +:+ notes_arg.

(** What one lifecycle call can write: nothing, or the rows of one of the
    five handlers on its success path, under the guards that path has
    passed. *)
Inductive writes (db : DB) : DB → Prop :=
  | writes_nothing :
      writes db db
  | writes_create (r : BorrowRequest) :
      status r = pending →
      1 ≤ quantity r →
      writes db
        (mkDB (Equipment_objects db)
              (<[BorrowRequest_next_pk db := r]> (BorrowRequest_objects db))
              (Equipment_next_pk db) (BorrowRequest_next_pk db + 1))
  | writes_approve (now request_user pk : Z) (r : BorrowRequest) (e : Equipment) :
      BorrowRequest_objects db !! pk = Some r →
      Equipment_objects db !! equipment r = Some e →
      status r = pending →
      check_availability db (Some pk) r e = true →
      writes db
        (mkDB (Equipment_objects db)
              (<[pk := set_approved_date (Some now)
                         (set_approved_by (Some request_user)
                            (set_status approved r))]>
                 (BorrowRequest_objects db))
              (Equipment_next_pk db) (BorrowRequest_next_pk db))
  | writes_reject (now request_user pk : Z) (reason : string) (r : BorrowRequest) :
      BorrowRequest_objects db !! pk = Some r →
      status r = pending →
      writes db
        (mkDB (Equipment_objects db)
              (<[pk := set_approved_date (Some now)
                         (set_approved_by (Some request_user)
                            (set_rejection_reason reason
                               (set_status rejected r)))]>
                 (BorrowRequest_objects db))
              (Equipment_next_pk db) (BorrowRequest_next_pk db))
  | writes_issue (now pk : Z) (r : BorrowRequest) (e : Equipment) :
      BorrowRequest_objects db !! pk = Some r →
      Equipment_objects db !! equipment r = Some e →
      status r = approved →
      quantity r ≤ available_quantity e →
      writes db
        (mkDB (<[equipment r :=
                   set_updated_at now
                     (set_available_quantity
                        (Z.min (available_quantity e - quantity r)
                               (total_quantity e)) e)]>
                 (Equipment_objects db))
              (<[pk := set_issued_date (Some now) (set_status issued r)]>
                 (BorrowRequest_objects db))
              (Equipment_next_pk db) (BorrowRequest_next_pk db))
  | writes_return (now pk : Z) (notes_arg : string) (r : BorrowRequest)
      (e : Equipment) :
      BorrowRequest_objects db !! pk = Some r →
      Equipment_objects db !! equipment r = Some e →
      status r = issued ∨ status r = overdue →
      writes db
        (mkDB (<[equipment r :=
                   set_updated_at now
                     (set_available_quantity
                        (Z.min (available_quantity e + quantity r)
                               (total_quantity e)) e)]>
                 (Equipment_objects db))
              (<[pk := let r1 := set_returned_date (Some now)
                                   (set_status returned r) in
                       if py_truthy notes_arg then set_notes notes_arg r1 else r1]>
                 (BorrowRequest_objects db))
              (Equipment_next_pk db) (BorrowRequest_next_pk db)).

(* ===================================================================== *)
(* The rest of models.py, permissions.py and views.py                    *)
(* ===================================================================== *)

(** Equipment.is_available *)
Definition is_available (self : Equipment) : bool :=
  (available_quantity self >? 0) && is_active self.

(** BorrowRequest.is_overdue, at clock reading [now] *)
Definition is_overdue (now : Z) (self : BorrowRequest) : bool :=
  bool_decide (status self = issued) && (now >? borrow_until self).

(** BorrowRequest.clean: [Some msg] when it raises ValidationError(msg),
    [None] when it returns. *)
Definition BorrowRequest_clean (self : BorrowRequest) (self_equipment : Equipment)
    : option string :=
  if borrow_until self <=? borrow_from self
  then Some "Return date must be after borrow date"
  else if quantity self >? total_quantity self_equipment
  then Some "Requested quantity exceeds available quantity"
  else None.

(** request.user: an authenticated row of User or the anonymous user. *)
Inductive RequestUser :=
  | AnonymousUser
  | AuthenticatedUser (u : User).

Definition is_authenticated (request_user : RequestUser) : bool :=
  match request_user with
  | AnonymousUser => false
  | AuthenticatedUser _ => true
  end.

(** The permission classes of permissions.py and the framework's
    IsAuthenticated. *)
Inductive Permission :=
  | IsAuthenticated | IsAdminOrStaff | IsAdmin | IsOwnerOrStaff.

(** has_permission of each class; IsOwnerOrStaff does not define it and
    inherits the base class's, which returns True. *)
Definition has_permission (p : Permission) (request_user : RequestUser) : bool :=
  match p, request_user with
  | IsAuthenticated, _ => is_authenticated request_user
  | IsAdminOrStaff, AuthenticatedUser u => bool_decide (role u ∈ [admin; staff])
  | IsAdminOrStaff, AnonymousUser => false
  | IsAdmin, AuthenticatedUser u => bool_decide (role u = admin)
  | IsAdmin, AnonymousUser => false
  | IsOwnerOrStaff, _ => true
  end.

(** IsOwnerOrStaff.has_object_permission for an authenticated user; the
    other classes inherit the base class's, which returns True. *)
Definition has_object_permission (p : Permission) (u : User) (obj : BorrowRequest)
    : bool :=
  match p with
  | IsOwnerOrStaff =>
      if bool_decide (role u ∈ [admin; staff]) then true
      else bool_decide (user obj = user_id u)
  | _ => true
  end.

(** BorrowRequestViewSet.get_permissions; [action] is self.action, the
    name of the handler method. *)
Definition BorrowRequestViewSet_get_permissions (action : string) : list Permission :=
  if bool_decide (action ∈ ["approve"; "reject"; "issue"; "return"])
  then [IsAdminOrStaff]
  else if bool_decide (action ∈ ["update"; "partial_update"; "destroy"])
  then [IsOwnerOrStaff]
  else [IsAuthenticated].

(** EquipmentViewSet.get_permissions *)
Definition EquipmentViewSet_get_permissions (action : string) : list Permission :=
  if bool_decide (action ∈ ["create"; "update"; "partial_update"; "destroy"])
  then [IsAdmin]
  else [IsAuthenticated].

(** The framework's check_permissions: every class returned by
    get_permissions must grant. *)
Definition check_permissions (permissions : list Permission)
    (request_user : RequestUser) : bool :=
  forallb (λ p, has_permission p request_user) permissions.

(** The handler methods of BorrowRequestViewSet: the six of ModelViewSet
    and the six declared with @action. *)
Definition BorrowRequestViewSet_actions : list string :=
  ["list"; "create"; "retrieve"; "update"; "partial_update"; "destroy";
   "approve"; "reject"; "issue"; "return_equipment"; "my_requests"; "pending"].

Section QueryParams.

(** str.lower of Python. *)
Variable lower : string → string.

(** EquipmentViewSet.get_queryset; [available] is
    self.request.query_params.get('available', None).  A queryset is
    modelled as the set of its rows. *)
Definition EquipmentViewSet_get_queryset (available : option string) (db : DB)
    : gmap Z Equipment :=
  let queryset := Equipment_objects db in
  match available with
  | Some v =>
      if bool_decide (lower v = "true")
      then filter (λ row : Z * Equipment,
                     available_quantity row.2 > 0 ∧ is_active row.2 = true)
                  queryset
      else queryset
  | None => queryset
  end.

(** BorrowRequestViewSet.get_queryset; [overdue] is
    self.request.query_params.get('overdue', None).  The base queryset
    joins each request with its equipment row (select_related). *)
Definition BorrowRequestViewSet_get_queryset (request_user : User)
    (overdue : option string) (now : Z) (db : DB) : gmap Z BorrowRequest :=
  let queryset :=
    filter (λ row : Z * BorrowRequest,
              is_Some (Equipment_objects db !! equipment row.2))
           (BorrowRequest_objects db) in
  let queryset :=
    if bool_decide (role request_user = student)
    then filter (λ row : Z * BorrowRequest, user row.2 = user_id request_user)
                queryset
    else queryset in
  let overdue_true :=
    match overdue with
    | Some v => py_truthy v && bool_decide (lower v = "true")
    | None => false
    end in
  if overdue_true
  then filter (λ row : Z * BorrowRequest,
                 status row.2 = issued ∧ borrow_until row.2 < now)
              queryset
  else queryset.

(** BorrowRequestViewSet.my_requests: the rows it serializes. *)
Definition my_requests (request_user : User) (overdue : option string) (now : Z)
    (db : DB) : gmap Z BorrowRequest :=
  filter (λ row : Z * BorrowRequest, user row.2 = user_id request_user)
         (BorrowRequestViewSet_get_queryset request_user overdue now db).

(** BorrowRequestViewSet.pending: the rows it serializes. *)
Definition pending_requests (request_user : User) (overdue : option string)
    (now : Z) (db : DB) : gmap Z BorrowRequest :=
  filter (λ row : Z * BorrowRequest, status row.2 = pending)
         (BorrowRequestViewSet_get_queryset request_user overdue now db).

End QueryParams.

(** BorrowRequestViewSet.update for a PUT (the framework's): get_object,
    is_valid on the payload, then the serializer's update, which assigns
    every validated field to the instance and saves it. *)
Definition BorrowRequestViewSet_update (now : Z) (pk : Z)
    (inp : BorrowRequestInput) (db : DB) : Response * DB :=
  match get_object db pk with
  | None => (not_found, db)
  | Some (instance, _) =>
      match BorrowRequestSerializer_is_valid db now inp with
      | inl e => (error_response e, db)
      | inr (validated_data, _) =>
          let instance :=
            mkBorrowRequest (user instance) (in_equipment validated_data)
              (in_quantity validated_data) (in_purpose validated_data)
              (status instance) (requested_date instance)
              (in_borrow_from validated_data) (in_borrow_until validated_data)
              (approved_by instance) (approved_date instance)
              (issued_date instance) (returned_date instance)
              (in_rejection_reason validated_data) (in_notes validated_data) in
          let '(_, r, db) := BorrowRequest_save now (Some pk) instance db in
          (mkResponse (BorrowRequestBody pk r) HTTP_200_OK, db)
      end
  end.

(** A call of the API that writes: a lifecycle call or the creation of an
    equipment row. *)
Inductive ApiCall :=
  | Lifecycle (c : Call)
  | CreateEquipment (inp : EquipmentInput).

Definition api_handle (now : Z) (c : ApiCall) (db : DB) : Response * DB :=
  match c with
  | Lifecycle c => handle now c db
  | CreateEquipment inp => EquipmentViewSet_create now inp db
  end.

Fixpoint api_run (calls : list (Z * ApiCall)) (db : DB) : DB :=
  match calls with
  | [] => db
  | (now, c) :: rest => api_run rest (api_handle now c db).2
  end.

(** The database before any call: no rows, both sequences at 1. *)
Definition empty_db : DB := mkDB ∅ ∅ 1 1.

(* --------------------------------------------------------------------- *)
(* Further specification vocabulary                                      *)
(* --------------------------------------------------------------------- *)

(** A row counts as handed out for equipment [equipment_pk]: issued or
    overdue, the two statuses return_equipment accepts. *)
Definition out_lookup (equipment_pk : Z) (row : Z * BorrowRequest) : bool :=
  (equipment row.2 =? equipment_pk)
  && status_in (status row.2) [issued; overdue].

(** The quantity of equipment [equipment_pk] that is handed out. *)
Definition quantity_out (db : DB) (equipment_pk : Z) : Z :=
  table_sum (out_lookup equipment_pk) (BorrowRequest_objects db).

(** The counter of every equipment row is its total minus what is handed
    out. *)
Definition stock_identity (db : DB) : Prop :=
  ∀ pk e, Equipment_objects db !! pk = Some e →
    available_quantity e + quantity_out db pk = total_quantity e.

(** Each sequence is ahead of the keys of its table. *)
Definition request_keys_fresh (db : DB) : Prop :=
  ∀ pk, is_Some (BorrowRequest_objects db !! pk) → pk < BorrowRequest_next_pk db.

Definition equipment_keys_fresh (db : DB) : Prop :=
  ∀ pk, is_Some (Equipment_objects db !! pk) → pk < Equipment_next_pk db.

(** Every request row names an equipment row. *)
Definition references_valid (db : DB) : Prop :=
  ∀ pk r, BorrowRequest_objects db !! pk = Some r →
    is_Some (Equipment_objects db !! equipment r).

(** Every request row passes clean() against its equipment row. *)
Definition requests_clean (db : DB) : Prop :=
  ∀ pk r e, BorrowRequest_objects db !! pk = Some r →
    Equipment_objects db !! equipment r = Some e →
    BorrowRequest_clean r e = None.

(** The statuses a lifecycle handler moves a request between. *)
Inductive transition : Status → Status → Prop :=
  | transition_approve : transition pending approved
  | transition_reject : transition pending rejected
  | transition_issue : transition approved issued
  | transition_return_issued : transition issued returned
  | transition_return_overdue : transition overdue returned.

(** A request is in the queryset of [request_user]: every request for
    staff and admin, own requests for a student. *)
Definition visible_to (request_user : User) (r : BorrowRequest) : Prop :=
  role request_user = student → user r = user_id request_user.

(** The handler of a call finds the request: return_equipment looks it up
    in the queryset of its caller, the staff-gated handlers in the whole
    table. *)
Definition call_sees (c : Call) (r : BorrowRequest) : Prop :=
  match c with
  | ReturnEquipment u _ _ => visible_to u r
  | _ => True
  end.

(** A call of one of the two handlers that move the stock counter. *)
Definition stock_call (c : Call) : bool :=
  match c with
  | Issue _ | ReturnEquipment _ _ _ => true
  | _ => false
  end.

(** The request a lifecycle call addresses, the statuses its handler
    accepts and the status it writes. *)
Definition call_key (c : Call) : option Z :=
  match c with
  | CreateRequest _ _ => None
  | Approve _ pk | Reject _ pk _ | Issue pk | ReturnEquipment _ pk _ => Some pk
  end.

Definition call_sources (c : Call) : list Status :=
  match c with
  | CreateRequest _ _ => []
  | Approve _ _ | Reject _ _ _ => [pending]
  | Issue _ => [approved]
  | ReturnEquipment _ _ _ => [issued; overdue]
  end.

Definition call_target (c : Call) : Status :=
  match c with
  | CreateRequest _ _ => pending
  | Approve _ _ => approved
  | Reject _ _ _ => rejected
  | Issue _ => issued
  | ReturnEquipment _ _ _ => returned
  end.

(** Two equipment rows describe the same item: everything but the stock
    counter and the auto_now stamp agrees. *)
Definition same_item (e e' : Equipment) : Prop :=
  name e' = name e ∧ condition e' = condition e
  ∧ total_quantity e' = total_quantity e ∧ is_active e' = is_active e
  ∧ created_at e' = created_at e.

(** Two rows describe the same booking: requester, equipment, quantity,
    purpose, request date and interval agree. *)
Definition same_booking (r r' : BorrowRequest) : Prop :=
  user r' = user r ∧ equipment r' = equipment r ∧ quantity r' = quantity r
  ∧ purpose r' = purpose r ∧ requested_date r' = requested_date r
  ∧ borrow_from r' = borrow_from r ∧ borrow_until r' = borrow_until r.

(** The invariants of a database built through the API. *)
Record well_formed (db : DB) : Prop := mk_well_formed {
  wf_request_keys : request_keys_fresh db;
  wf_equipment_keys : equipment_keys_fresh db;
  wf_references : references_valid db;
  wf_quantities : quantities_valid db;
  wf_clean : requests_clean db;
  wf_counter : counter_invariant db;
  wf_stock : stock_identity db;
  wf_capacity : capacity_invariant db
}.

(* ===================================================================== *)
(* Proofs                                                                *)
(* ===================================================================== *)

Lemma fold_left_add_acc (l : list Z) (a : Z) :
  fold_left Z.add l a = a + foldr Z.add 0 l.
Proof.
  revert a. induction l as [|x l IH]; intros a; simpl; [lia|].
  rewrite IH. lia.
Qed.

Lemma py_sum_foldr (l : list Z) : py_sum l = foldr Z.add 0 l.
Proof. unfold py_sum. rewrite fold_left_add_acc. lia. Qed.

Lemma py_sum_filter (P : Z * BorrowRequest → bool) (l : list (Z * BorrowRequest)) :
  py_sum (List.map (λ req, quantity req.2) (List.filter P l)) = weighted_sum P l.
Proof.
  rewrite py_sum_foldr. unfold weighted_sum, weight.
  induction l as [|row l IH]; simpl; [done|].
  destruct (P row); simpl; lia.
Qed.

Lemma filter_filter_andb {A} (P Q : A → bool) (l : list A) :
  List.filter Q (List.filter P l) = List.filter (λ x, P x && Q x) l.
Proof.
  induction l as [|x l IH]; simpl; [done|].
  destruct (P x); simpl; [destruct (Q x)|]; by rewrite IH.
Qed.

Lemma weighted_sum_perm (P : Z * BorrowRequest → bool) (l1 l2 : list (Z * BorrowRequest)) :
  l1 ≡ₚ l2 → weighted_sum P l1 = weighted_sum P l2.
Proof.
  unfold weighted_sum. induction 1; simpl; lia.
Qed.

Lemma table_sum_empty (P : Z * BorrowRequest → bool) : table_sum P ∅ = 0.
Proof. unfold table_sum. by rewrite map_to_list_empty. Qed.

Lemma table_sum_insert_fresh P (m : gmap Z BorrowRequest) (k : Z) (r : BorrowRequest) :
  m !! k = None →
  table_sum P (<[k := r]> m) = weight P (k, r) + table_sum P m.
Proof.
  intros Hk. unfold table_sum.
  by rewrite (weighted_sum_perm _ _ _ (map_to_list_insert m k r Hk)).
Qed.

Lemma table_sum_delete P (m : gmap Z BorrowRequest) (k : Z) (r : BorrowRequest) :
  m !! k = Some r →
  table_sum P m = weight P (k, r) + table_sum P (delete k m).
Proof.
  intros Hk. unfold table_sum.
  by rewrite <- (weighted_sum_perm _ _ _ (map_to_list_delete m k r Hk)).
Qed.

(** Overwriting a row replaces its weight. *)
Lemma table_sum_insert P (m : gmap Z BorrowRequest) (k : Z) (r r' : BorrowRequest) :
  m !! k = Some r →
  table_sum P (<[k := r']> m) = table_sum P m - weight P (k, r) + weight P (k, r').
Proof.
  intros Hk. rewrite <- insert_delete_eq.
  rewrite table_sum_insert_fresh by apply lookup_delete_eq.
  rewrite (table_sum_delete P m k r Hk). lia.
Qed.

(** Two restrictions that agree on the rows of the table give one sum. *)
Lemma table_sum_ext P Q (m : gmap Z BorrowRequest) :
  (∀ k r, m !! k = Some r → P (k, r) = Q (k, r)) →
  table_sum P m = table_sum Q m.
Proof.
  induction m as [|k r m Hk IH] using map_ind; intros HPQ.
  - by rewrite !table_sum_empty.
  - rewrite !table_sum_insert_fresh by done.
    unfold weight. rewrite (HPQ k r) by apply lookup_insert_eq.
    fold (weight P) (weight Q). rewrite IH; [done|].
    intros k' r' Hk'. apply HPQ. rewrite lookup_insert_ne; [done|].
    intros ->. congruence.
Qed.

(** With no negative quantity in the table, a wider restriction gives a
    larger sum. *)
Lemma table_sum_mono P Q (m : gmap Z BorrowRequest) :
  (∀ k r, m !! k = Some r → 0 ≤ quantity r) →
  (∀ k r, m !! k = Some r → P (k, r) = true → Q (k, r) = true) →
  table_sum P m ≤ table_sum Q m.
Proof.
  induction m as [|k r m Hk IH] using map_ind; intros Hq HPQ.
  - rewrite !table_sum_empty. lia.
  - rewrite !table_sum_insert_fresh by done.
    assert (Hm : ∀ k' r', m !! k' = Some r' → <[k:=r]> m !! k' = Some r').
    { intros k' r' Hk'. rewrite lookup_insert_ne; [done|]. intros ->. congruence. }
    assert (table_sum P m ≤ table_sum Q m) by (apply IH; eauto).
    assert (0 ≤ quantity r) by (apply (Hq k), lookup_insert_eq).
    pose proof (HPQ k r (lookup_insert_eq _ _ _)) as Hkr.
    unfold weight. simpl. destruct (P (k, r)), (Q (k, r)); simpl; try lia.
    all: discriminate (Hkr eq_refl).
Qed.

(** The sum computed by check_availability, as a sum over the table. *)
Lemma check_availability_sum (db : DB) (self_pk : option Z) (self : BorrowRequest) :
  py_sum (List.map (λ req, quantity req.2)
    (List.filter (exclude_pk self_pk)
      (List.filter
         (overlapping_lookup (equipment self) (borrow_from self) (borrow_until self))
         (map_to_list (BorrowRequest_objects db)))))
  = table_sum
      (λ row, overlapping_lookup (equipment self) (borrow_from self)
                (borrow_until self) row && exclude_pk self_pk row)
      (BorrowRequest_objects db).
Proof. by rewrite filter_filter_andb, py_sum_filter. Qed.

Lemma check_availability_unfold (db : DB) (self_pk : option Z)
    (self : BorrowRequest) (e : Equipment) :
  check_availability db self_pk self e = true ↔
  quantity self ≤ total_quantity e -
    table_sum
      (λ row, overlapping_lookup (equipment self) (borrow_from self)
                (borrow_until self) row && exclude_pk self_pk row)
      (BorrowRequest_objects db).
Proof.
  unfold check_availability. rewrite check_availability_sum.
  rewrite Z.geb_le. lia.
Qed.

(* --------------------------------------------------------------------- *)
(* The availability check                                                *)
(* --------------------------------------------------------------------- *)

Lemma status_in_approved_issued (s : Status) :
  status_in s [approved; issued] = true ↔ s = approved ∨ s = issued.
Proof.
  unfold status_in. rewrite bool_decide_eq_true.
  rewrite !elem_of_cons, elem_of_nil. tauto.
Qed.

Lemma exclude_pk_true (self_pk : option Z) (row : Z * BorrowRequest) :
  exclude_pk self_pk row = true ↔ self_pk ≠ Some row.1.
Proof.
  unfold exclude_pk. destruct self_pk as [p|]; [|done].
  rewrite negb_true_iff, Z.eqb_neq. split; [congruence|].
  intros H Heq. apply H. by rewrite Heq.
Qed.

(** The query of the code selects the rows the specification counts. *)
Lemma lookup_counted equipment_pk cand_from cand_until exclude pk stored :
  overlapping_lookup equipment_pk cand_from cand_until (pk, stored)
    && exclude_pk exclude (pk, stored) = true
  ↔ counted equipment_pk cand_from cand_until exclude pk stored.
Proof.
  unfold overlapping_lookup, counted, overlaps. simpl.
  rewrite !andb_true_iff, Z.eqb_eq, status_in_approved_issued, Z.ltb_lt,
    Z.gtb_gt, exclude_pk_true. simpl. tauto.
Qed.

Lemma overlapping_sum_table_sum db equipment_pk cand_from cand_until exclude :
  overlapping_sum db equipment_pk cand_from cand_until exclude
  = table_sum
      (λ row, overlapping_lookup equipment_pk cand_from cand_until row
              && exclude_pk exclude row)
      (BorrowRequest_objects db).
Proof.
  unfold overlapping_sum, table_sum, weighted_sum. rewrite map_fold_foldr.
  induction (map_to_list (BorrowRequest_objects db)) as [|[pk stored] l IH];
    simpl; [done|].
  rewrite IH. unfold weight. simpl.
  destruct (decide _) as [Hc|Hc]; apply lookup_counted in Hc || 
    (rewrite <- lookup_counted in Hc; apply not_true_is_false in Hc);
    rewrite Hc; lia.
Qed.

Lemma touching_not_overlapping stored_from stored_until cand_from cand_until :
  stored_until = cand_from ∨ cand_until = stored_from →
  ¬ overlaps stored_from stored_until cand_from cand_until.
Proof. unfold overlaps. lia. Qed.

(** C2. check_availability answers true exactly when the total quantity
    of the equipment minus the quantities of the stored approved or issued
    requests on it that overlap the candidate interval (the excluded
    request apart) is at least the candidate quantity, where a stored
    request overlaps iff stored.from < candidate.until and stored.until >
    candidate.from; a stored request that only touches the candidate at an
    endpoint is not overlapping, is not selected by the query, and the
    answer is the same with that request removed from the table. *)
Theorem check_availability_iff_capacity (db : DB) (self_pk : option Z)
    (self : BorrowRequest) (e : Equipment) :
  (check_availability db self_pk self e = true ↔
     total_quantity e
       - overlapping_sum db (equipment self) (borrow_from self) (borrow_until self)
           self_pk
     >= quantity self)
  ∧ (∀ pk stored,
       BorrowRequest_objects db !! pk = Some stored →
       borrow_until stored = borrow_from self
         ∨ borrow_until self = borrow_from stored →
       ¬ overlaps (borrow_from stored) (borrow_until stored)
           (borrow_from self) (borrow_until self)
       ∧ overlapping_lookup (equipment self) (borrow_from self)
           (borrow_until self) (pk, stored) = false
       ∧ check_availability (without_request pk db) self_pk self e
         = check_availability db self_pk self e).
Proof.
  split.
  - rewrite check_availability_unfold, overlapping_sum_table_sum. lia.
  - intros pk stored Hpk Htouch.
    assert (Hno : ¬ overlaps (borrow_from stored) (borrow_until stored)
                    (borrow_from self) (borrow_until self))
      by by apply touching_not_overlapping.
    assert (Hlk : overlapping_lookup (equipment self) (borrow_from self)
                    (borrow_until self) (pk, stored) = false).
    { unfold overlapping_lookup, overlaps in *. simpl.
      rewrite !andb_false_iff, Z.ltb_ge, Z.gtb_ltb, Z.ltb_ge. lia. }
    split; [done|]. split; [done|].
    unfold check_availability. rewrite !check_availability_sum. simpl.
    rewrite (table_sum_delete _ (BorrowRequest_objects db) pk stored Hpk).
    unfold weight at 1. by rewrite Hlk.
Qed.

Lemma check_availability_touching_witness :
  let e := mkEquipment "projector" good 5 5 true 0 0 in
  let stored := mkBorrowRequest 7 1 3 "lecture" approved 0 10 20
                  (Some 9) (Some 1) None None "" "" in
  let self := mkBorrowRequest 8 1 5 "seminar" pending 2 20 30
                None None None None "" "" in
  let db := mkDB {[1 := e]} {[1 := stored]} 2 2 in
  check_availability db None self e = true
  ∧ check_availability (without_request 1 db) None self e
    = check_availability db None self e.
Proof.
  intros e stored self db.
  destruct (check_availability_iff_capacity db None self e) as [Hiff Htouch].
  split.
  - apply Hiff. vm_compute. discriminate.
  - apply (Htouch 1 stored); [reflexivity | left; reflexivity].
Defined.

(* --------------------------------------------------------------------- *)
(* issue and return_equipment                                            *)
(* --------------------------------------------------------------------- *)

Lemma get_object_Some (db : DB) (pk : Z) (r : BorrowRequest) (e : Equipment) :
  BorrowRequest_objects db !! pk = Some r →
  Equipment_objects db !! equipment r = Some e →
  get_object db pk = Some (r, e).
Proof. intros Hr He. unfold get_object. by rewrite Hr, He. Qed.

(** What a successful issue leaves in the database. *)
Lemma issue_success (db : DB) (now pk : Z) (r : BorrowRequest) (e : Equipment) :
  BorrowRequest_objects db !! pk = Some r →
  Equipment_objects db !! equipment r = Some e →
  status r = approved →
  quantity r ≤ available_quantity e →
  issue now pk db =
    (mkResponse
       (BorrowRequestBody pk (set_issued_date (Some now) (set_status issued r)))
       HTTP_200_OK,
     mkDB
       (<[equipment r :=
            set_updated_at now
              (set_available_quantity
                 (Z.min (available_quantity e - quantity r) (total_quantity e)) e)]>
          (Equipment_objects db))
       (<[pk := set_issued_date (Some now) (set_status issued r)]>
          (BorrowRequest_objects db))
       (Equipment_next_pk db) (BorrowRequest_next_pk db)).
Proof.
  intros Hr He Hst Hq. unfold issue. rewrite (get_object_Some db pk r e Hr He).
  rewrite bool_decide_eq_true_2 by done. simpl.
  destruct (Z.ltb_spec (available_quantity e) (quantity r)) as [?|_]; [lia|].
  unfold Equipment_save. simpl.
  destruct (Z.gtb_spec (available_quantity e - quantity r) (total_quantity e)).
  - simpl. rewrite Z.min_r by lia. reflexivity.
  - simpl. rewrite Z.min_l by lia. reflexivity.
Qed.

(** What a refused issue answers. *)
Lemma issue_failure (db : DB) (now pk : Z) (r : BorrowRequest) (e : Equipment) :
  BorrowRequest_objects db !! pk = Some r →
  Equipment_objects db !! equipment r = Some e →
  ¬ (status r = approved ∧ quantity r ≤ available_quantity e) →
  ∃ msg, issue now pk db = (mkResponse (ErrorBody msg) HTTP_400_BAD_REQUEST, db).
Proof.
  intros Hr He Hno. unfold issue. rewrite (get_object_Some db pk r e Hr He).
  destruct (decide (status r = approved)) as [Hst|Hst].
  - rewrite bool_decide_eq_true_2 by done. simpl.
    destruct (Z.ltb_spec (available_quantity e) (quantity r)) as [_|?];
      [eauto | tauto].
  - rewrite bool_decide_eq_false_2 by done. simpl. eauto.
Qed.

Lemma get_object_as_Some (request_user : User) (db : DB) (pk : Z)
    (r : BorrowRequest) (e : Equipment) :
  BorrowRequest_objects db !! pk = Some r →
  Equipment_objects db !! equipment r = Some e →
  visible_to request_user r →
  get_object_as request_user db pk = Some (r, e).
Proof.
  intros Hr He Hv. unfold get_object_as.
  rewrite (get_object_Some db pk r e Hr He).
  destruct (decide (role request_user = student)) as [Hrole|Hrole].
  - rewrite bool_decide_eq_true_2 by done.
    by rewrite (proj2 (Z.eqb_eq _ _) (Hv Hrole)).
  - by rewrite bool_decide_eq_false_2.
Qed.

Lemma get_object_as_hidden (request_user : User) (db : DB) (pk : Z)
    (r : BorrowRequest) :
  BorrowRequest_objects db !! pk = Some r →
  ¬ visible_to request_user r →
  get_object_as request_user db pk = None.
Proof.
  intros Hr Hv. unfold get_object_as, get_object. rewrite Hr.
  destruct (Equipment_objects db !! equipment r); [|done].
  destruct (decide (role request_user = student)) as [Hrole|Hrole].
  - rewrite bool_decide_eq_true_2 by done.
    destruct (Z.eqb_spec (user r) (user_id request_user)); [|done].
    exfalso. apply Hv. by intros _.
  - exfalso. apply Hv. by intros ?.
Qed.

(** What a successful return leaves in the database. *)
Lemma return_success (db : DB) (now : Z) (request_user : User) (pk : Z)
    (notes_arg : string) (r : BorrowRequest) (e : Equipment) :
  BorrowRequest_objects db !! pk = Some r →
  Equipment_objects db !! equipment r = Some e →
  visible_to request_user r →
  status r = issued ∨ status r = overdue →
  let r' :=
    let r1 := set_returned_date (Some now) (set_status returned r) in
    if py_truthy notes_arg then set_notes notes_arg r1 else r1 in
  return_equipment now request_user pk notes_arg db =
    (mkResponse (BorrowRequestBody pk r') HTTP_200_OK,
     mkDB
       (<[equipment r :=
            set_updated_at now
              (set_available_quantity
                 (Z.min (available_quantity e + quantity r) (total_quantity e)) e)]>
          (Equipment_objects db))
       (<[pk := r']> (BorrowRequest_objects db))
       (Equipment_next_pk db) (BorrowRequest_next_pk db)).
Proof.
  intros Hr He Hv Hst r'. unfold return_equipment.
  rewrite (get_object_as_Some request_user db pk r e Hr He Hv).
  assert (Hin : status_in (status r) [issued; overdue] = true).
  { unfold status_in. rewrite bool_decide_eq_true, !elem_of_cons. tauto. }
  rewrite Hin. simpl. unfold Equipment_save. simpl.
  destruct (Z.gtb_spec (available_quantity e + quantity r) (total_quantity e)).
  - simpl. rewrite Z.min_r by lia. reflexivity.
  - simpl. rewrite Z.min_l by lia. reflexivity.
Qed.

Lemma return_failure (db : DB) (now : Z) (request_user : User) (pk : Z)
    (notes_arg : string) (r : BorrowRequest) (e : Equipment) :
  BorrowRequest_objects db !! pk = Some r →
  Equipment_objects db !! equipment r = Some e →
  visible_to request_user r →
  ¬ (status r = issued ∨ status r = overdue) →
  return_equipment now request_user pk notes_arg db =
    (mkResponse (ErrorBody "Only issued requests can be returned")
       HTTP_400_BAD_REQUEST, db).
Proof.
  intros Hr He Hv Hst. unfold return_equipment.
  rewrite (get_object_as_Some request_user db pk r e Hr He Hv).
  assert (Hin : status_in (status r) [issued; overdue] = false).
  { unfold status_in. rewrite bool_decide_eq_false, !elem_of_cons, elem_of_nil.
    tauto. }
  by rewrite Hin.
Qed.

(** A call on a request outside the caller's queryset finds nothing. *)
Lemma return_hidden (db : DB) (now : Z) (request_user : User) (pk : Z)
    (notes_arg : string) (r : BorrowRequest) :
  BorrowRequest_objects db !! pk = Some r →
  ¬ visible_to request_user r →
  return_equipment now request_user pk notes_arg db = (not_found, db).
Proof.
  intros Hr Hv. unfold return_equipment.
  by rewrite (get_object_as_hidden request_user db pk r Hr Hv).
Qed.

(** C3. For a stored request whose equipment row respects
    available <= total and whose quantity respects its validator, issue
    succeeds exactly when the request is approved and the stock on hand is
    at least its quantity; on success the equipment row loses exactly that
    quantity (and its auto_now stamp moves), the request becomes issued
    with the issue time stamped, and nothing else in the database changes;
    otherwise the answer is a 400 error and the database is unchanged. *)
Theorem issue_iff_approved_and_in_stock (db : DB) (now pk : Z)
    (r : BorrowRequest) (e : Equipment) :
  BorrowRequest_objects db !! pk = Some r →
  Equipment_objects db !! equipment r = Some e →
  available_quantity e ≤ total_quantity e →
  1 ≤ quantity r →
  let result := issue now pk db in
  (status_code result.1 = HTTP_200_OK ↔
     status r = approved ∧ available_quantity e >= quantity r)
  ∧ (status_code result.1 = HTTP_200_OK →
       ∃ e' r',
         result.2 = mkDB (<[equipment r := e']> (Equipment_objects db))
                         (<[pk := r']> (BorrowRequest_objects db))
                         (Equipment_next_pk db) (BorrowRequest_next_pk db)
         ∧ e' = set_updated_at now
                  (set_available_quantity
                     (available_quantity e - quantity r) e)
         ∧ available_quantity e' = available_quantity e - quantity r
         ∧ r' = set_issued_date (Some now) (set_status issued r)
         ∧ status r' = issued
         ∧ issued_date r' = Some now)
  ∧ (status_code result.1 ≠ HTTP_200_OK →
       (∃ msg, result.1 = mkResponse (ErrorBody msg) HTTP_400_BAD_REQUEST)
       ∧ result.2 = db).
Proof.
  intros Hr He Hle Hq result. subst result.
  destruct (decide (status r = approved ∧ quantity r ≤ available_quantity e))
    as [[Hst Hav]|Hno].
  - rewrite (issue_success db now pk r e Hr He Hst Hav). simpl.
    rewrite Z.min_l by lia.
    split; [split; [intros _; split; [done|lia] | done]|].
    split; [|done].
    intros _. eexists _, _. repeat split; reflexivity.
  - destruct (issue_failure db now pk r e Hr He Hno) as [msg ->]. simpl.
    split; [split; [discriminate | intros [? ?]; exfalso; apply Hno; split; [done|lia]]|].
    split; [discriminate|].
    intros _. split; [by exists msg | done].
Qed.

Lemma issue_iff_approved_and_in_stock_witness :
  let e := mkEquipment "projector" good 5 5 true 0 0 in
  let r := mkBorrowRequest 7 1 2 "lecture" approved 0 10 20
             (Some 9) (Some 1) None None "" "" in
  let db := mkDB {[1 := e]} {[4 := r]} 2 5 in
  status_code (issue 3 4 db).1 = HTTP_200_OK
  ∧ (available_quantity <$> Equipment_objects (issue 3 4 db).2 !! 1) = Some 3.
Proof.
  intros e r db.
  destruct (issue_iff_approved_and_in_stock db 3 4 r e) as (Hiff & Hok & _);
    [reflexivity | reflexivity | simpl; lia | simpl; lia |].
  assert (Hcode : status_code (issue 3 4 db).1 = HTTP_200_OK).
  { apply Hiff. split; [reflexivity | simpl; lia]. }
  split; [exact Hcode|].
  destruct (Hok Hcode) as (e' & r' & -> & _ & Hav & _).
  simpl. rewrite lookup_insert_eq. simpl. rewrite Hav. reflexivity.
Defined.

(** C4 (as the code has it). For a stored request, return_equipment
    succeeds exactly when the request is in the queryset of the caller
    (every request for staff and admin, own requests for a student) and
    its status is issued or overdue; on success the counter of the
    equipment row becomes min(available + quantity, total), so never above
    the total, the request becomes returned with the return time stamped,
    and its notes are replaced by the supplied notes when these are not
    empty and kept otherwise; nothing else in the database changes.  On
    failure the database is unchanged: the answer is a 400 error for a
    request the caller sees in any other status, and 404 for a request
    outside the caller's queryset. *)
Theorem return_equipment_replaces_notes (db : DB) (now : Z)
    (request_user : User) (pk : Z) (notes_arg : string) (r : BorrowRequest)
    (e : Equipment) :
  BorrowRequest_objects db !! pk = Some r →
  Equipment_objects db !! equipment r = Some e →
  let result := return_equipment now request_user pk notes_arg db in
  (status_code result.1 = HTTP_200_OK ↔
     visible_to request_user r ∧ (status r = issued ∨ status r = overdue))
  ∧ (status_code result.1 = HTTP_200_OK →
       ∃ e' r',
         result.2 = mkDB (<[equipment r := e']> (Equipment_objects db))
                         (<[pk := r']> (BorrowRequest_objects db))
                         (Equipment_next_pk db) (BorrowRequest_next_pk db)
         ∧ e' = set_updated_at now
                  (set_available_quantity
                     (Z.min (available_quantity e + quantity r)
                            (total_quantity e)) e)
         ∧ available_quantity e' ≤ total_quantity e'
         ∧ r' = (let r1 := set_returned_date (Some now) (set_status returned r) in
                 if py_truthy notes_arg then set_notes notes_arg r1 else r1)
         ∧ status r' = returned
         ∧ returned_date r' = Some now
         ∧ notes r' = (if py_truthy notes_arg then notes_arg else notes r))
  ∧ (status_code result.1 ≠ HTTP_200_OK →
       result.2 = db
       ∧ (visible_to request_user r →
            result.1 = mkResponse (ErrorBody "Only issued requests can be returned")
                         HTTP_400_BAD_REQUEST)
       ∧ (¬ visible_to request_user r → result.1 = not_found)).
Proof.
  intros Hr He result. subst result.
  destruct (decide (visible_to request_user r)) as [Hv|Hv].
  - destruct (decide (status r = issued ∨ status r = overdue)) as [Hst|Hst].
    + rewrite (return_success db now request_user pk notes_arg r e Hr He Hv Hst).
      simpl. split; [tauto|]. split; [|done].
      intros _. eexists _, _. split; [reflexivity|]. split; [reflexivity|].
      split; [simpl; lia|]. split; [reflexivity|].
      destruct (py_truthy notes_arg); done.
    + rewrite (return_failure db now request_user pk notes_arg r e Hr He Hv Hst).
      simpl. split; [split; [discriminate | tauto]|]. split; [discriminate|].
      intros _. split; [done|]. split; [done | tauto].
  - rewrite (return_hidden db now request_user pk notes_arg r Hr Hv). simpl.
    split; [split; [discriminate | tauto]|]. split; [discriminate|].
    intros _. split; [done|]. split; [tauto | done].
Qed.

Lemma return_equipment_replaces_notes_witness :
  let e := mkEquipment "projector" good 5 3 true 0 0 in
  let r := mkBorrowRequest 7 1 2 "lecture" issued 0 10 20
             (Some 9) (Some 1) (Some 3) None "" "handle with care" in
  let db := mkDB {[1 := e]} {[4 := r]} 2 5 in
  let clerk := mkUser 9 staff in
  let other := mkUser 8 student in
  status_code (return_equipment 30 clerk 4 "lens cap missing" db).1 = HTTP_200_OK
  ∧ (notes <$> BorrowRequest_objects
       (return_equipment 30 clerk 4 "lens cap missing" db).2 !! 4)
    = Some "lens cap missing"
  ∧ return_equipment 30 other 4 "lens cap missing" db = (not_found, db).
Proof.
  intros e r db clerk other.
  destruct (return_equipment_replaces_notes db 30 clerk 4 "lens cap missing" r e)
    as (Hiff & Hok & _); [reflexivity | reflexivity |].
  assert (Hcode :
    status_code (return_equipment 30 clerk 4 "lens cap missing" db).1
    = HTTP_200_OK).
  { apply Hiff. split; [intros Hrole; discriminate Hrole | left; reflexivity]. }
  split; [exact Hcode|]. split.
  - destruct (Hok Hcode) as (e' & r' & -> & _ & _ & _ & _ & _ & Hn).
    simpl. rewrite lookup_insert_eq. simpl. rewrite Hn. reflexivity.
  - destruct (return_equipment_replaces_notes db 30 other 4 "lens cap missing"
                r e) as (Hiff' & _ & Hfail); [reflexivity | reflexivity |].
    assert (Hhid : ¬ visible_to other r).
    { intros Hv. specialize (Hv eq_refl). discriminate Hv. }
    assert (Hcode' :
      status_code (return_equipment 30 other 4 "lens cap missing" db).1
      ≠ HTTP_200_OK).
    { intros Hc. apply Hiff' in Hc as [Hv _]. by apply Hhid. }
    destruct (Hfail Hcode') as (Hdb & _ & Hnf). specialize (Hnf Hhid).
    destruct (return_equipment 30 other 4 "lens cap missing" db) as [resp db'].
    simpl in *. by subst.
Defined.

(** C4 as stated fails: a return by staff, with notes, on a request that
    already has notes succeeds and leaves only the supplied notes. *)
Lemma return_equipment_appends_notes_counterexample :
  let e := mkEquipment "projector" good 5 3 true 0 0 in
  let r := mkBorrowRequest 7 1 2 "lecture" issued 0 10 20
             (Some 9) (Some 1) (Some 3) None "" "handle with care" in
  let db := mkDB {[1 := e]} {[4 := r]} 2 5 in
  let result := return_equipment 30 (mkUser 9 staff) 4 "lens cap missing" db in
  ∃ r', status_code result.1 = HTTP_200_OK
        ∧ BorrowRequest_objects result.2 !! 4 = Some r'
        ∧ notes r' = "lens cap missing"
        ∧ ¬ notes_appended r r' "lens cap missing".
Proof.
  eexists. split; [reflexivity|]. split; [vm_compute; reflexivity|].
  split; [reflexivity|]. unfold notes_appended. simpl. discriminate.
Qed.

(* --------------------------------------------------------------------- *)
(* approve on a request that is not pending                              *)
(* --------------------------------------------------------------------- *)

(** C5 (as the code has it). For every stored request whose status is not
    pending, approve answers HTTP 400 with the error
    'Only pending requests can be approved' and leaves the database, so
    the request row and the equipment row, unchanged. *)
Theorem approve_non_pending_is_400 (db : DB) (now request_user pk : Z)
    (r : BorrowRequest) (e : Equipment) :
  BorrowRequest_objects db !! pk = Some r →
  Equipment_objects db !! equipment r = Some e →
  status r ≠ pending →
  approve now request_user pk db =
    (mkResponse (ErrorBody "Only pending requests can be approved")
       HTTP_400_BAD_REQUEST, db).
Proof.
  intros Hr He Hst. unfold approve. rewrite (get_object_Some db pk r e Hr He).
  by rewrite bool_decide_eq_false_2.
Qed.

Lemma approve_non_pending_is_400_witness :
  let e := mkEquipment "projector" good 5 5 true 0 0 in
  let r := mkBorrowRequest 7 1 2 "lecture" returned 0 10 20
             (Some 9) (Some 1) (Some 3) (Some 4) "" "" in
  let db := mkDB {[1 := e]} {[4 := r]} 2 5 in
  approve 6 9 4 db =
    (mkResponse (ErrorBody "Only pending requests can be approved")
       HTTP_400_BAD_REQUEST, db).
Proof.
  intros e r db.
  apply (approve_non_pending_is_400 db 6 9 4 r e);
    [reflexivity | reflexivity | simpl; discriminate].
Defined.

(** C5 as stated fails: approving an already approved request answers
    400, not 409. *)
Lemma approve_non_pending_409_counterexample :
  let e := mkEquipment "projector" good 5 5 true 0 0 in
  let r := mkBorrowRequest 7 1 2 "lecture" approved 0 10 20
             (Some 9) (Some 1) None None "" "" in
  let db := mkDB {[1 := e]} {[4 := r]} 2 5 in
  BorrowRequest_objects db !! 4 = Some r
  ∧ status r ≠ pending
  ∧ status_code (approve 6 9 4 db).1 = HTTP_400_BAD_REQUEST
  ∧ status_code (approve 6 9 4 db).1 ≠ HTTP_409_CONFLICT.
Proof.
  split; [reflexivity|]. split; [simpl; discriminate|].
  split; [reflexivity | vm_compute; discriminate].
Qed.

(* --------------------------------------------------------------------- *)
(* Validation at creation                                                *)
(* --------------------------------------------------------------------- *)

(** The three messages of BorrowRequestSerializer.validate. *)
Lemma validate_rejects (now : Z) (inp : BorrowRequestInput) (e : Equipment) :
  in_quantity inp > total_quantity e
  ∨ in_borrow_until inp ≤ in_borrow_from inp
  ∨ in_borrow_from inp < now →
  ∃ msg, BorrowRequestSerializer_validate now inp e = inl (NonFieldError msg)
         ∧ (msg = msg_return_after_borrow ∨ msg = msg_borrow_in_past
            ∨ msg = msg_exceeds_total (total_quantity e)).
Proof.
  intros H. unfold BorrowRequestSerializer_validate.
  destruct (Z.leb_spec (in_borrow_until inp) (in_borrow_from inp)); [eauto|].
  destruct (Z.ltb_spec (in_borrow_from inp) now); [eauto|].
  destruct (Z.gtb_spec (in_quantity inp) (total_quantity e)); [eauto|lia].
Qed.

(** The failure of is_valid does not read the request table. *)
Lemma is_valid_with_requests (db : DB) (now : Z) (inp : BorrowRequestInput)
    (tbl : gmap Z BorrowRequest) :
  BorrowRequestSerializer_is_valid (with_requests tbl db) now inp
  = BorrowRequestSerializer_is_valid db now inp.
Proof. reflexivity. Qed.

(** C6. A create call whose quantity exceeds the total quantity of the
    named equipment, or whose interval is not in order, or whose start is
    before the clock reading, is refused by is_valid with a
    ValidationError, so the serializer's create, which holds the
    availability check, is not entered: the answer is that error as a 400,
    it is not the error of the availability check, it is the same whatever
    the request table holds, and the database is unchanged. *)
Theorem create_invalid_fails_before_availability (db : DB) (now request_user : Z)
    (inp : BorrowRequestInput) :
  (∃ e, Equipment_objects db !! in_equipment inp = Some e
        ∧ in_quantity inp > total_quantity e)
  ∨ in_borrow_until inp ≤ in_borrow_from inp
  ∨ in_borrow_from inp < now →
  ∃ err,
    BorrowRequestSerializer_is_valid db now inp = inl err
    ∧ BorrowRequestViewSet_create now request_user inp db = (error_response err, db)
    ∧ status_code (error_response err) = HTTP_400_BAD_REQUEST
    ∧ err ≠ NonFieldError msg_not_available_create
    ∧ ∀ tbl, BorrowRequestViewSet_create now request_user inp (with_requests tbl db)
             = (error_response err, with_requests tbl db).
Proof.
  intros H.
  assert (Hv : ∃ err, BorrowRequestSerializer_is_valid db now inp = inl err
                      ∧ err ≠ NonFieldError msg_not_available_create).
  { unfold BorrowRequestSerializer_is_valid, BorrowRequestSerializer_fields.
    destruct (Equipment_objects db !! in_equipment inp) as [e|] eqn:He;
      [|by eexists].
    destruct (in_quantity inp <? 1); [by eexists|].
    destruct (bool_decide (in_purpose inp = "")); [by eexists|].
    destruct (validate_rejects now inp e) as (msg & -> & Hmsg).
    { destruct H as [(e' & He' & Hq)|H]; [left; congruence | right; exact H]. }
    eexists. split; [reflexivity|].
    destruct Hmsg as [->|[->| ->]]; discriminate. }
  destruct Hv as (err & Hv & Hne). exists err.
  split; [done|]. split.
  { unfold BorrowRequestViewSet_create. by rewrite Hv. }
  split; [by destruct err|]. split; [done|].
  intros tbl. unfold BorrowRequestViewSet_create.
  by rewrite is_valid_with_requests, Hv.
Qed.

(** Scenario D, with a table on which the availability check fails too. *)
Lemma create_invalid_fails_before_availability_witness :
  let e := mkEquipment "projector" good 5 5 true 0 0 in
  let held := mkBorrowRequest 7 1 5 "lecture" approved 0 10 20
                (Some 9) (Some 1) None None "" "" in
  let db := mkDB {[1 := e]} {[4 := held]} 2 5 in
  let inp := mkBorrowRequestInput 1 6 "seminar" 12 18 "" "" in
  check_availability db None
    (mkBorrowRequest 8 1 6 "seminar" pending 3 12 18 None None None None "" "")
    e = false
  ∧ ∃ err, BorrowRequestSerializer_is_valid db 3 inp = inl err
           ∧ BorrowRequestViewSet_create 3 8 inp db = (error_response err, db)
           ∧ err = NonFieldError "Requested quantity exceeds total quantity (5)".
Proof.
  intros e held db inp. split; [vm_compute; reflexivity|].
  destruct (create_invalid_fails_before_availability db 3 8 inp)
    as (err & Hv & Hc & _).
  { left. exists e. split; [reflexivity | simpl; lia]. }
  exists err. split; [exact Hv|]. split; [exact Hc|].
  vm_compute in Hv. injection Hv as <-. reflexivity.
Defined.

(* --------------------------------------------------------------------- *)
(* What a call writes                                                    *)
(* --------------------------------------------------------------------- *)

Lemma get_object_inv (db : DB) (pk : Z) (r : BorrowRequest) (e : Equipment) :
  get_object db pk = Some (r, e) →
  BorrowRequest_objects db !! pk = Some r
  ∧ Equipment_objects db !! equipment r = Some e.
Proof.
  unfold get_object. intros H.
  destruct (BorrowRequest_objects db !! pk) as [r0|]; [|done].
  destruct (Equipment_objects db !! equipment r0) as [e0|] eqn:He; [|done].
  by injection H as <- <-.
Qed.

Lemma create_writes (now request_user : Z) (inp : BorrowRequestInput) (db : DB) :
  writes db (BorrowRequestViewSet_create now request_user inp db).2.
Proof.
  unfold BorrowRequestViewSet_create.
  destruct (BorrowRequestSerializer_is_valid db now inp) as [err|[data e]] eqn:Hv;
    [apply writes_nothing|].
  assert (Hq : 1 ≤ in_quantity data).
  { unfold BorrowRequestSerializer_is_valid, BorrowRequestSerializer_fields,
      BorrowRequestSerializer_validate in Hv.
    destruct (Equipment_objects db !! in_equipment inp); [|done].
    destruct (Z.ltb_spec (in_quantity inp) 1); [done|].
    repeat (case_match; try done). by simplify_eq. }
  unfold BorrowRequestSerializer_create.
  destruct (check_availability _ _ _ _); simpl; [|apply writes_nothing].
  by apply (writes_create db).
Qed.

Lemma get_object_as_inv (request_user : User) (db : DB) (pk : Z)
    (r : BorrowRequest) (e : Equipment) :
  get_object_as request_user db pk = Some (r, e) →
  BorrowRequest_objects db !! pk = Some r
  ∧ Equipment_objects db !! equipment r = Some e
  ∧ visible_to request_user r.
Proof.
  unfold get_object_as. intros H.
  destruct (get_object db pk) as [[r0 e0]|] eqn:Hg; [|done].
  apply get_object_inv in Hg as [Hr He].
  destruct (decide (role request_user = student)) as [Hrole|Hrole].
  - rewrite bool_decide_eq_true_2 in H by done.
    destruct (Z.eqb_spec (user r0) (user_id request_user)); [|done].
    injection H as <- <-. split; [done|]. split; [done|]. by intros _.
  - rewrite bool_decide_eq_false_2 in H by done.
    injection H as <- <-. split; [done|]. split; [done|]. by intros ?.
Qed.

Lemma handle_writes (now : Z) (c : Call) (db : DB) :
  writes db (handle now c db).2.
Proof.
  destruct c as [u inp|u pk|u pk reason|pk|u pk n]; simpl.
  - apply create_writes.
  - unfold approve.
    destruct (get_object db pk) as [[r e]|] eqn:Hg; [|apply writes_nothing].
    apply get_object_inv in Hg as [Hr He].
    destruct (decide (status r = pending)) as [Hst|Hst].
    + rewrite bool_decide_eq_true_2 by done. simpl.
      destruct (check_availability db (Some pk) r e) eqn:Hc; simpl;
        [|apply writes_nothing].
      by apply (writes_approve db now u pk r e).
    + rewrite bool_decide_eq_false_2 by done. apply writes_nothing.
  - unfold reject.
    destruct (get_object db pk) as [[r e]|] eqn:Hg; [|apply writes_nothing].
    apply get_object_inv in Hg as [Hr He].
    destruct (decide (status r = pending)) as [Hst|Hst].
    + rewrite bool_decide_eq_true_2 by done. simpl.
      by apply (writes_reject db now u pk reason r).
    + rewrite bool_decide_eq_false_2 by done. apply writes_nothing.
  - destruct (get_object db pk) as [[r e]|] eqn:Hg;
      [|unfold issue; rewrite Hg; apply writes_nothing].
    apply get_object_inv in Hg as [Hr He].
    destruct (decide (status r = approved ∧ quantity r ≤ available_quantity e))
      as [[Hst Hav]|Hno].
    + rewrite (issue_success db now pk r e Hr He Hst Hav). simpl.
      by apply (writes_issue db now pk r e).
    + destruct (issue_failure db now pk r e Hr He Hno) as [msg ->].
      apply writes_nothing.
  - destruct (get_object_as u db pk) as [[r e]|] eqn:Hg;
      [|unfold return_equipment; rewrite Hg; apply writes_nothing].
    apply get_object_as_inv in Hg as (Hr & He & Hv).
    destruct (decide (status r = issued ∨ status r = overdue)) as [Hst|Hst].
    + rewrite (return_success db now u pk n r e Hr He Hv Hst). simpl.
      by apply (writes_return db now pk n r e).
    + rewrite (return_failure db now u pk n r e Hr He Hv Hst).
      apply writes_nothing.
Qed.

(** Every written request row keeps a quantity of at least 1. *)
Lemma writes_quantities_valid (db db' : DB) :
  writes db db' → quantities_valid db → quantities_valid db'.
Proof.
  intros Hw Hq k x. destruct Hw; simpl; try apply Hq.
  all: intros Hx; apply lookup_insert_Some in Hx as [[<- <-]|[_ Hx]];
    try (by eapply Hq); simpl; try (by eapply Hq); try done.
  destruct (py_truthy notes_arg); simpl; by eapply Hq.
Qed.

Lemma weight_nonneg P (k : Z) (r : BorrowRequest) :
  0 ≤ quantity r → 0 ≤ weight P (k, r).
Proof. unfold weight. simpl. destruct (P (k, r)); lia. Qed.

(** Writing a row that the restriction rejects cannot raise the sum. *)
Lemma table_sum_insert_outside P (m : gmap Z BorrowRequest) (k : Z)
    (r' : BorrowRequest) :
  (∀ r, m !! k = Some r → 0 ≤ quantity r) →
  P (k, r') = false →
  table_sum P (<[k := r']> m) ≤ table_sum P m.
Proof.
  intros Hq HP. destruct (m !! k) as [r|] eqn:Hk.
  - rewrite (table_sum_insert P m k r r' Hk).
    pose proof (weight_nonneg P k r (Hq r eq_refl)).
    unfold weight at 2. rewrite HP. lia.
  - rewrite (table_sum_insert_fresh P m k r' Hk). unfold weight. rewrite HP. lia.
Qed.

(** Writing a row with the weight of the one it replaces keeps the sum. *)
Lemma table_sum_insert_same P (m : gmap Z BorrowRequest) (k : Z)
    (r r' : BorrowRequest) :
  m !! k = Some r →
  weight P (k, r') = weight P (k, r) →
  table_sum P (<[k := r']> m) = table_sum P m.
Proof. intros Hk Hw. rewrite (table_sum_insert P m k r r' Hk). lia. Qed.

(* --------------------------------------------------------------------- *)
(* The capacity invariant                                                *)
(* --------------------------------------------------------------------- *)

Lemma committed_lookup_status (equipment_pk t k : Z) (r : BorrowRequest) :
  status_in (status r) [approved; issued] = false →
  committed_lookup equipment_pk t (k, r) = false.
Proof.
  intros H. unfold committed_lookup. simpl. rewrite H.
  by rewrite andb_false_r.
Qed.

Lemma committed_lookup_true (equipment_pk t k : Z) (r : BorrowRequest) :
  committed_lookup equipment_pk t (k, r) = true ↔
  equipment r = equipment_pk
  ∧ (status r = approved ∨ status r = issued)
  ∧ borrow_from r ≤ t < borrow_until r.
Proof.
  unfold committed_lookup, covers. simpl.
  rewrite !andb_true_iff, Z.eqb_eq, status_in_approved_issued, Z.leb_le, Z.ltb_lt.
  tauto.
Qed.

(** At an instant the candidate covers, every commitment on the same
    equipment is a row the availability query selects. *)
Lemma committed_is_overlapping (m : gmap Z BorrowRequest) (pk : Z)
    (r : BorrowRequest) (t : Z) :
  m !! pk = Some r →
  status r = pending →
  borrow_from r ≤ t < borrow_until r →
  ∀ k r0, m !! k = Some r0 →
    committed_lookup (equipment r) t (k, r0) = true →
    overlapping_lookup (equipment r) (borrow_from r) (borrow_until r) (k, r0)
      && exclude_pk (Some pk) (k, r0) = true.
Proof.
  intros Hr Hst Ht k r0 Hk Hc.
  apply committed_lookup_true in Hc as (Heq & Hs & Hcov).
  apply lookup_counted. unfold counted, overlaps.
  split; [done|]. split; [done|]. split; [lia|].
  intros [= ->]. rewrite Hr in Hk. injection Hk as <-.
  rewrite Hst in Hs. by destruct Hs.
Qed.

(** Approval of a request that passed the availability check keeps the
    commitments on its equipment within the total at every instant. *)
Lemma approve_within_total (db : DB) (pk : Z) (r r' : BorrowRequest)
    (e : Equipment) (t : Z) :
  quantities_valid db →
  BorrowRequest_objects db !! pk = Some r →
  status r = pending →
  check_availability db (Some pk) r e = true →
  equipment r' = equipment r → quantity r' = quantity r →
  borrow_from r' = borrow_from r → borrow_until r' = borrow_until r →
  committed_at db (equipment r) t ≤ total_quantity e →
  table_sum (committed_lookup (equipment r) t)
    (<[pk := r']> (BorrowRequest_objects db)) ≤ total_quantity e.
Proof.
  intros Hq Hr Hst Hc Heq Hqty Hfrom Huntil Hinv.
  rewrite (table_sum_insert _ _ pk r r' Hr).
  unfold weight at 1. rewrite committed_lookup_status
    by (rewrite Hst; reflexivity).
  unfold weight. simpl.
  destruct (committed_lookup (equipment r) t (pk, r')) eqn:Hnew;
    [|unfold committed_at in Hinv; lia].
  apply committed_lookup_true in Hnew as (_ & _ & Hcov).
  rewrite Hfrom, Huntil in Hcov.
  apply check_availability_unfold in Hc.
  assert (Hmono :
    table_sum (committed_lookup (equipment r) t) (BorrowRequest_objects db)
    ≤ table_sum
        (λ row, overlapping_lookup (equipment r) (borrow_from r)
                  (borrow_until r) row && exclude_pk (Some pk) row)
        (BorrowRequest_objects db)).
  { apply table_sum_mono.
    - intros k r0 Hk. specialize (Hq k r0 Hk). lia.
    - by apply committed_is_overlapping. }
  lia.
Qed.

Lemma writes_capacity_invariant (db db' : DB) :
  writes db db' →
  quantities_valid db → capacity_invariant db → capacity_invariant db'.
Proof.
  intros Hw Hq Hinv.
  assert (Hq0 : ∀ k r0, BorrowRequest_objects db !! k = Some r0 → 0 ≤ quantity r0).
  { intros k r0 Hk. specialize (Hq k r0 Hk). lia. }
  destruct Hw as [|r Hst Hqr|now u pk r e Hr He Hst Hc|now u pk reason r Hr Hst
                  |now pk r e Hr He Hst Hav|now pk n r e Hr He Hst];
    intros k x t Hx; unfold committed_at; simpl in *.
  - by apply Hinv.
  - etrans; [|by apply (Hinv k x t)].
    apply table_sum_insert_outside; [by eauto|].
    apply committed_lookup_status. by rewrite Hst.
  - destruct (decide (k = equipment r)) as [->|Hne].
    + rewrite He in Hx. injection Hx as <-.
      by apply (approve_within_total db pk r _ e t); try apply Hinv.
    + etrans; [|by apply (Hinv k x t)].
      apply table_sum_insert_outside; [by eauto|].
      unfold committed_lookup. simpl.
      by rewrite (proj2 (Z.eqb_neq (equipment r) k)) by done.
  - etrans; [|by apply (Hinv k x t)].
    apply table_sum_insert_outside; [by eauto|].
    by apply committed_lookup_status.
  - rewrite (table_sum_insert_same _ _ pk r _ Hr).
    + apply lookup_insert_Some in Hx as [[<- <-]|[_ Hx]]; simpl;
        by apply (Hinv _ _ t).
    + unfold weight, committed_lookup. simpl. by rewrite Hst.
  - etrans.
    + apply table_sum_insert_outside; [by eauto|].
      apply committed_lookup_status. by destruct (py_truthy n).
    + apply lookup_insert_Some in Hx as [[<- <-]|[_ Hx]]; simpl;
        by apply (Hinv _ _ t).
Qed.

Lemma run_preserves (I : DB → Prop) :
  (∀ db db', writes db db' → quantities_valid db → I db → I db') →
  ∀ calls db, quantities_valid db → I db →
    quantities_valid (run calls db) ∧ I (run calls db).
Proof.
  intros Hstep calls. induction calls as [|[now c] calls IH]; intros db Hq HI;
    simpl; [done|].
  pose proof (handle_writes now c db) as Hw.
  apply IH; [by apply (writes_quantities_valid db) | by apply (Hstep db)].
Qed.

(** C1. From any database in which the capacity invariant holds (and
    whose request rows satisfy the quantity validator of the model), every
    sequence of create, approve, reject, issue and return calls, run one
    after the other, leads to a database in which it holds: for every
    equipment row and every instant t, the quantities of the approved or
    issued requests on it whose interval [borrow_from, borrow_until)
    covers t sum to at most its total quantity.  The quantity validator
    holds again at the end. *)
Theorem capacity_invariant_preserved (db : DB) (calls : list (Z * Call)) :
  quantities_valid db →
  capacity_invariant db →
  capacity_invariant (run calls db) ∧ quantities_valid (run calls db).
Proof.
  intros Hq Hinv.
  destruct (run_preserves capacity_invariant writes_capacity_invariant
              calls db Hq Hinv) as [? ?].
  done.
Qed.

Lemma capacity_invariant_preserved_witness :
  let e := mkEquipment "projector" good 5 5 true 0 0 in
  let db := mkDB {[1 := e]} ∅ 2 1 in
  let calls :=
    [(0, CreateRequest 7 (mkBorrowRequestInput 1 3 "lecture" 10 30 "" ""));
     (1, Approve 9 1);
     (2, CreateRequest 8 (mkBorrowRequestInput 1 3 "seminar" 20 40 "" ""));
     (3, Issue 1);
     (4, ReturnEquipment (mkUser 9 staff) 1 "")] in
  capacity_invariant (run calls db)
  ∧ (status <$> BorrowRequest_objects (run calls db) !! 1) = Some returned
  ∧ BorrowRequest_objects (run calls db) !! 2 = None.
Proof.
  intros e db calls. split; [|split; vm_compute; reflexivity].
  apply (capacity_invariant_preserved db calls).
  - intros pk r Hr. unfold db in Hr. simpl in Hr.
    rewrite lookup_empty in Hr. discriminate.
  - intros pk x t Hx. unfold committed_at, db in *. simpl in *.
    rewrite table_sum_empty.
    apply lookup_singleton_Some in Hx as [_ <-]. simpl. lia.
Defined.

(* --------------------------------------------------------------------- *)
(* The counter invariant                                                 *)
(* --------------------------------------------------------------------- *)

Lemma writes_counter_invariant (db db' : DB) :
  writes db db' →
  quantities_valid db → counter_invariant db → counter_invariant db'.
Proof.
  intros Hw Hq Hinv.
  destruct Hw as [|r Hst Hqr|now u pk r e Hr He Hst Hc|now u pk reason r Hr Hst
                  |now pk r e Hr He Hst Hav|now pk n r e Hr He Hst];
    intros k x Hx; simpl in *; try by apply (Hinv k).
  - apply lookup_insert_Some in Hx as [[<- <-]|[_ Hx]]; [|by apply (Hinv k)].
    pose proof (Hinv _ _ He). simpl. lia.
  - apply lookup_insert_Some in Hx as [[<- <-]|[_ Hx]]; [|by apply (Hinv k)].
    pose proof (Hinv _ _ He). pose proof (Hq _ _ Hr). simpl. lia.
Qed.

(** Equipment.save writes a row whose counter is min(available, total). *)
Lemma Equipment_save_clamps (now : Z) (pk : option Z) (self : Equipment) (db : DB) :
  ∃ e', Equipment_objects (Equipment_save now pk self db).2
          !! (Equipment_save now pk self db).1.1 = Some e'
        ∧ total_quantity e' = total_quantity self
        ∧ available_quantity e'
          = Z.min (available_quantity self) (total_quantity self).
Proof.
  unfold Equipment_save.
  destruct (Z.gtb_spec (available_quantity self) (total_quantity self));
    destruct pk as [k|]; simpl; rewrite lookup_insert_eq;
    eexists; (split; [reflexivity|]); simpl; lia.
Qed.

(** issue writes nothing when the stock on hand is below the quantity. *)
Lemma issue_guard (db : DB) (now pk : Z) (r : BorrowRequest) (e : Equipment) :
  BorrowRequest_objects db !! pk = Some r →
  Equipment_objects db !! equipment r = Some e →
  available_quantity e < quantity r →
  (issue now pk db).2 = db.
Proof.
  intros Hr He Hlt.
  destruct (issue_failure db now pk r e Hr He) as [msg ->]; [lia | done].
Qed.

(** C8. From a database whose equipment rows satisfy
    0 <= available <= total (and whose request rows satisfy the quantity
    validator), every sequence of create, approve, reject, issue and
    return calls leads to a database whose equipment rows satisfy it;
    issue writes nothing when the stock on hand is below the requested
    quantity, and when it writes, the new counter available - quantity is
    not negative; Equipment.save writes min(available, total) as the
    counter: the total when the counter exceeds it, the counter itself
    otherwise. *)
Theorem counter_invariant_preserved :
  (∀ db calls,
     quantities_valid db → counter_invariant db →
     counter_invariant (run calls db))
  ∧ (∀ db now pk r e,
       BorrowRequest_objects db !! pk = Some r →
       Equipment_objects db !! equipment r = Some e →
       (available_quantity e < quantity r → (issue now pk db).2 = db)
       ∧ ((issue now pk db).2 ≠ db →
            0 ≤ available_quantity e - quantity r))
  ∧ (∀ now pk self db,
       ∃ e', Equipment_objects (Equipment_save now pk self db).2
               !! (Equipment_save now pk self db).1.1 = Some e'
             ∧ total_quantity e' = total_quantity self
             ∧ (available_quantity self > total_quantity self →
                  available_quantity e' = total_quantity self)
             ∧ (available_quantity self ≤ total_quantity self →
                  available_quantity e' = available_quantity self)).
Proof.
  split; [|split].
  - intros db calls Hq Hinv.
    by destruct (run_preserves counter_invariant writes_counter_invariant
                   calls db Hq Hinv).
  - intros db now pk r e Hr He. split; [by apply issue_guard|].
    intros Hne.
    destruct (Z.lt_ge_cases (available_quantity e) (quantity r)); [|lia].
    exfalso. apply Hne. by apply (issue_guard db now pk r e).
  - intros now pk self db.
    destruct (Equipment_save_clamps now pk self db) as (e' & Hl & Ht & Ha).
    exists e'. split; [done|]. split; [done|]. lia.
Qed.

Lemma counter_invariant_preserved_witness :
  let e := mkEquipment "projector" good 5 5 true 0 0 in
  let db := mkDB {[1 := e]} ∅ 2 1 in
  let calls :=
    [(0, CreateRequest 7 (mkBorrowRequestInput 1 3 "lecture" 10 30 "" ""));
     (1, Approve 9 1);
     (3, Issue 1)] in
  counter_invariant (run calls db)
  ∧ (available_quantity <$> Equipment_objects (run calls db) !! 1) = Some 2.
Proof.
  intros e db calls. split; [|vm_compute; reflexivity].
  destruct counter_invariant_preserved as (Hrun & _ & _).
  apply (Hrun db calls).
  - intros pk r Hr. unfold db in Hr. simpl in Hr.
    rewrite lookup_empty in Hr. discriminate.
  - intros pk x Hx. unfold db in Hx. simpl in Hx.
    apply lookup_singleton_Some in Hx as [_ <-]. simpl. lia.
Defined.

(* --------------------------------------------------------------------- *)
(* Creation of an equipment row                                          *)
(* --------------------------------------------------------------------- *)

(** C9. A create call on the equipment endpoint gives the same response
    and database whatever available_quantity the client supplies; when
    the payload is valid the call answers 201 and the row stored under the
    returned key, which is the row of the response, has available_quantity
    and total_quantity equal to the supplied total_quantity; when it is
    not, the call answers 400 and stores nothing. *)
Theorem equipment_create_available_is_total (now : Z) (inp : EquipmentInput)
    (db : DB) :
  (∀ supplied,
     EquipmentViewSet_create now (with_available_quantity supplied inp) db
     = EquipmentViewSet_create now inp db)
  ∧ (in_name inp ≠ "" → 1 ≤ in_total_quantity inp →
       ∃ pk e db',
         EquipmentViewSet_create now inp db
           = (mkResponse (EquipmentBody pk e) HTTP_201_CREATED, db')
         ∧ Equipment_objects db' !! pk = Some e
         ∧ available_quantity e = in_total_quantity inp
         ∧ total_quantity e = in_total_quantity inp)
  ∧ (¬ (in_name inp ≠ "" ∧ 1 ≤ in_total_quantity inp) →
       ∃ field,
         EquipmentViewSet_create now inp db
           = (mkResponse (FieldErrorBody field) HTTP_400_BAD_REQUEST, db)).
Proof.
  split; [done|]. unfold EquipmentViewSet_create, EquipmentSerializer_is_valid.
  split.
  - intros Hname Htotal. rewrite bool_decide_eq_false_2 by done.
    destruct (Z.ltb_spec (in_total_quantity inp) 1) as [?|_]; [lia|].
    unfold EquipmentSerializer_create, Equipment_save. simpl.
    rewrite Z.gtb_ltb, Z.ltb_irrefl. simpl.
    eexists _, _, _. split; [reflexivity|]. simpl.
    by rewrite lookup_insert_eq.
  - intros Hno. destruct (decide (in_name inp = "")) as [Hname|Hname].
    + rewrite bool_decide_eq_true_2 by done. by eexists.
    + rewrite bool_decide_eq_false_2 by done.
      destruct (Z.ltb_spec (in_total_quantity inp) 1) as [_|?]; [|tauto].
      by eexists.
Qed.

Lemma equipment_create_available_is_total_witness :
  let db := mkDB ∅ ∅ 1 1 in
  let inp := mkEquipmentInput "projector" good 5 (Some 99) true in
  (available_quantity <$>
     Equipment_objects (EquipmentViewSet_create 0 inp db).2 !! 1) = Some 5.
Proof.
  intros db inp.
  destruct (equipment_create_available_is_total 0 inp db) as (_ & Hok & _).
  destruct Hok as (pk & e & db' & Hc & Hl & Ha & _);
    [simpl; discriminate | simpl; lia |].
  rewrite Hc. simpl.
  assert (Hpk : pk = 1) by (vm_compute in Hc; congruence).
  subst pk. rewrite Hl. simpl. rewrite Ha. reflexivity.
Defined.

(* --------------------------------------------------------------------- *)
(* The availability query                                                *)
(* --------------------------------------------------------------------- *)

Lemma overlapping_sum_doubly_committed (a b : Z) :
  a < b → overlapping_sum (doubly_committed a b) 1 a b None = 2.
Proof.
  intros Hab. rewrite overlapping_sum_table_sum. simpl.
  rewrite table_sum_insert_fresh by done.
  rewrite <- insert_empty, table_sum_insert_fresh, table_sum_empty by done.
  unfold weight, overlapping_lookup, status_in. simpl.
  rewrite (proj2 (Z.ltb_lt a b)), (proj2 (Z.gtb_gt b a)) by lia.
  reflexivity.
Qed.

(** C10. For an existing equipment row and two non-empty parameters that
    parse to the instants a and b, the availability endpoint answers 200
    with total_quantity minus the sum of the quantities of all approved or
    issued requests on the equipment that overlap [a, b), no request
    excluded and no bound applied; and for every such pair with a < b
    there is a database on which the quantity it reports is negative. *)
Theorem availability_is_total_minus_overlapping (fromisoformat : string → option Z)
    (start end_ : string) (a b : Z) :
  start ≠ "" → end_ ≠ "" →
  fromisoformat start = Some a →
  fromisoformat end_ = Some b →
  (∀ db pk e,
     Equipment_objects db !! pk = Some e →
     availability fromisoformat pk (Some start) (Some end_) db
     = mkResponse
         (AvailabilityBody pk (total_quantity e)
            (total_quantity e - overlapping_sum db pk a b None) start end_)
         HTTP_200_OK)
  ∧ (a < b →
     ∃ db pk total available,
       data (availability fromisoformat pk (Some start) (Some end_) db)
       = AvailabilityBody pk total available start end_
       ∧ available < 0).
Proof.
  intros Hs He Ha Hb.
  assert (Hgen : ∀ db pk e,
    Equipment_objects db !! pk = Some e →
    availability fromisoformat pk (Some start) (Some end_) db
    = mkResponse
        (AvailabilityBody pk (total_quantity e)
           (total_quantity e - overlapping_sum db pk a b None) start end_)
        HTTP_200_OK).
  { intros db pk e Hpk. unfold availability. rewrite Hpk. simpl.
    rewrite !bool_decide_eq_false_2 by done. simpl. rewrite Ha, Hb.
    rewrite py_sum_filter, overlapping_sum_table_sum.
    do 3 f_equal. apply table_sum_ext. intros k r _.
    unfold exclude_pk. by rewrite andb_true_r. }
  split; [exact Hgen|].
  intros Hab.
  exists (doubly_committed a b), 1, 1, (-1).
  rewrite (Hgen _ 1 (mkEquipment "projector" good 1 1 true 0 0)) by done.
  rewrite (overlapping_sum_doubly_committed a b Hab).
  split; [reflexivity | lia].
Qed.

(** The back-to-back database respects the capacity invariant. *)
Lemma back_to_back_capacity_invariant : capacity_invariant back_to_back.
Proof.
  intros pk x t Hx. unfold committed_at, back_to_back in *. simpl in *.
  rewrite table_sum_insert_fresh by done.
  rewrite <- insert_empty, table_sum_insert_fresh, table_sum_empty by done.
  apply lookup_singleton_Some in Hx as [<- <-].
  unfold weight, committed_lookup, covers, status_in. simpl.
  destruct (Z.leb_spec 1 t), (Z.ltb_spec t 2), (Z.leb_spec 2 t),
    (Z.ltb_spec t 3); simpl; lia.
Qed.

(** On the back-to-back database the query over [1, 3) reports -5. *)
Lemma availability_is_total_minus_overlapping_witness :
  let fromisoformat := λ s : string,
    if bool_decide (s = "day1") then Some 1
    else if bool_decide (s = "day3") then Some 3 else None in
  availability fromisoformat 1 (Some "day1") (Some "day3") back_to_back
  = mkResponse (AvailabilityBody 1 5 (-5) "day1" "day3") HTTP_200_OK.
Proof.
  intros fromisoformat.
  destruct (availability_is_total_minus_overlapping fromisoformat
              "day1" "day3" 1 3) as [Hgen _];
    [discriminate | discriminate | reflexivity | reflexivity |].
  rewrite (Hgen back_to_back 1 (mkEquipment "projector" good 5 5 true 0 0));
    [|reflexivity].
  vm_compute. reflexivity.
Defined.

(* ===================================================================== *)
(* Further properties of the handlers                                    *)
(* ===================================================================== *)

(* --------------------------------------------------------------------- *)
(* approve, reject and create on their own                               *)
(* --------------------------------------------------------------------- *)

Lemma approve_success (db : DB) (now request_user pk : Z) (r : BorrowRequest)
    (e : Equipment) :
  BorrowRequest_objects db !! pk = Some r →
  Equipment_objects db !! equipment r = Some e →
  status r = pending →
  check_availability db (Some pk) r e = true →
  let r' := set_approved_date (Some now)
              (set_approved_by (Some request_user) (set_status approved r)) in
  approve now request_user pk db =
    (mkResponse (BorrowRequestBody pk r') HTTP_200_OK,
     mkDB (Equipment_objects db) (<[pk := r']> (BorrowRequest_objects db))
          (Equipment_next_pk db) (BorrowRequest_next_pk db)).
Proof.
  intros Hr He Hst Hc r'. unfold approve.
  rewrite (get_object_Some db pk r e Hr He).
  rewrite bool_decide_eq_true_2 by done. simpl. by rewrite Hc.
Qed.

Lemma approve_failure (db : DB) (now request_user pk : Z) (r : BorrowRequest)
    (e : Equipment) :
  BorrowRequest_objects db !! pk = Some r →
  Equipment_objects db !! equipment r = Some e →
  ¬ (status r = pending ∧ check_availability db (Some pk) r e = true) →
  approve now request_user pk db =
    (mkResponse
       (ErrorBody (if bool_decide (status r = pending)
                   then "Equipment not available for requested period"
                   else "Only pending requests can be approved"))
       HTTP_400_BAD_REQUEST, db).
Proof.
  intros Hr He Hno. unfold approve. rewrite (get_object_Some db pk r e Hr He).
  destruct (decide (status r = pending)) as [Hst|Hst].
  - rewrite !bool_decide_eq_true_2 by done. simpl.
    destruct (check_availability db (Some pk) r e); [tauto | done].
  - by rewrite !bool_decide_eq_false_2 by done.
Qed.

Lemma reject_success (db : DB) (now request_user pk : Z) (reason : string)
    (r : BorrowRequest) (e : Equipment) :
  BorrowRequest_objects db !! pk = Some r →
  Equipment_objects db !! equipment r = Some e →
  status r = pending →
  let r' := set_approved_date (Some now)
              (set_approved_by (Some request_user)
                 (set_rejection_reason reason (set_status rejected r))) in
  reject now request_user pk reason db =
    (mkResponse (BorrowRequestBody pk r') HTTP_200_OK,
     mkDB (Equipment_objects db) (<[pk := r']> (BorrowRequest_objects db))
          (Equipment_next_pk db) (BorrowRequest_next_pk db)).
Proof.
  intros Hr He Hst r'. unfold reject.
  rewrite (get_object_Some db pk r e Hr He).
  by rewrite bool_decide_eq_true_2 by done.
Qed.

Lemma reject_failure (db : DB) (now request_user pk : Z) (reason : string)
    (r : BorrowRequest) (e : Equipment) :
  BorrowRequest_objects db !! pk = Some r →
  Equipment_objects db !! equipment r = Some e →
  status r ≠ pending →
  reject now request_user pk reason db =
    (mkResponse (ErrorBody "Only pending requests can be rejected")
       HTTP_400_BAD_REQUEST, db).
Proof.
  intros Hr He Hst. unfold reject. rewrite (get_object_Some db pk r e Hr He).
  by rewrite bool_decide_eq_false_2 by done.
Qed.

(** X1. For a stored request, approve succeeds exactly when the request is
    pending and check_availability, run with the request itself excluded,
    passes; on success the row becomes approved with the approver and the
    time stamped and nothing else in the database changes, the equipment
    table included; otherwise the answer is a 400 whose message tells the
    two refusals apart, and the database is unchanged. *)
Theorem approve_iff_pending_and_available (db : DB) (now request_user pk : Z)
    (r : BorrowRequest) (e : Equipment) :
  BorrowRequest_objects db !! pk = Some r →
  Equipment_objects db !! equipment r = Some e →
  let result := approve now request_user pk db in
  (status_code result.1 = HTTP_200_OK ↔
     status r = pending ∧ check_availability db (Some pk) r e = true)
  ∧ (status_code result.1 = HTTP_200_OK →
       ∃ r',
         result.2 = mkDB (Equipment_objects db)
                         (<[pk := r']> (BorrowRequest_objects db))
                         (Equipment_next_pk db) (BorrowRequest_next_pk db)
         ∧ r' = set_approved_date (Some now)
                  (set_approved_by (Some request_user) (set_status approved r))
         ∧ status r' = approved
         ∧ approved_by r' = Some request_user
         ∧ approved_date r' = Some now)
  ∧ (status_code result.1 ≠ HTTP_200_OK →
       result.2 = db
       ∧ status_code result.1 = HTTP_400_BAD_REQUEST
       ∧ (status r = pending →
            data result.1
            = ErrorBody "Equipment not available for requested period")
       ∧ (status r ≠ pending →
            data result.1 = ErrorBody "Only pending requests can be approved")).
Proof.
  intros Hr He result. subst result.
  destruct (decide (status r = pending
                    ∧ check_availability db (Some pk) r e = true))
    as [[Hst Hc]|Hno].
  - rewrite (approve_success db now request_user pk r e Hr He Hst Hc). simpl.
    split; [tauto|]. split; [|done].
    intros _. eexists. repeat split; reflexivity.
  - rewrite (approve_failure db now request_user pk r e Hr He Hno). simpl.
    split; [split; [discriminate | tauto]|]. split; [discriminate|].
    intros _. split; [done|]. split; [done|].
    split; intros Hst.
    + by rewrite bool_decide_eq_true_2.
    + by rewrite bool_decide_eq_false_2.
Qed.

Lemma approve_iff_pending_and_available_witness :
  let e := mkEquipment "projector" good 5 5 true 0 0 in
  let held := mkBorrowRequest 7 1 3 "lecture" approved 0 10 30
                (Some 9) (Some 1) None None "" "" in
  let r := mkBorrowRequest 8 1 3 "seminar" pending 2 20 40
             None None None None "" "" in
  let db := mkDB {[1 := e]} (<[5 := r]> {[4 := held]}) 2 6 in
  approve 3 9 5 db
  = (mkResponse (ErrorBody "Equipment not available for requested period")
       HTTP_400_BAD_REQUEST, db).
Proof.
  intros e held r db.
  destruct (approve_iff_pending_and_available db 3 9 5 r e)
    as (Hiff & _ & Hfail); [reflexivity | reflexivity |].
  assert (Hcode : status_code (approve 3 9 5 db).1 ≠ HTTP_200_OK).
  { intros Hc. apply Hiff in Hc as [_ Hc]. vm_compute in Hc. discriminate. }
  destruct (Hfail Hcode) as (Hdb & H400 & Hmsg & _).
  specialize (Hmsg eq_refl).
  destruct (approve 3 9 5 db) as [[d c] db']. simpl in *. by subst.
Defined.

(** X2. For a stored request, reject succeeds exactly when the request is
    pending; on success the row becomes rejected with the reason, the
    rejecting user and the time stamped, and nothing else in the database
    changes; otherwise the answer is a 400 and the database is unchanged.
    No availability check is made. *)
Theorem reject_iff_pending (db : DB) (now request_user pk : Z) (reason : string)
    (r : BorrowRequest) (e : Equipment) :
  BorrowRequest_objects db !! pk = Some r →
  Equipment_objects db !! equipment r = Some e →
  let result := reject now request_user pk reason db in
  (status_code result.1 = HTTP_200_OK ↔ status r = pending)
  ∧ (status_code result.1 = HTTP_200_OK →
       ∃ r',
         result.2 = mkDB (Equipment_objects db)
                         (<[pk := r']> (BorrowRequest_objects db))
                         (Equipment_next_pk db) (BorrowRequest_next_pk db)
         ∧ r' = set_approved_date (Some now)
                  (set_approved_by (Some request_user)
                     (set_rejection_reason reason (set_status rejected r)))
         ∧ status r' = rejected
         ∧ rejection_reason r' = reason
         ∧ approved_by r' = Some request_user
         ∧ approved_date r' = Some now)
  ∧ (status_code result.1 ≠ HTTP_200_OK →
       result = (mkResponse (ErrorBody "Only pending requests can be rejected")
                   HTTP_400_BAD_REQUEST, db)).
Proof.
  intros Hr He result. subst result.
  destruct (decide (status r = pending)) as [Hst|Hst].
  - rewrite (reject_success db now request_user pk reason r e Hr He Hst). simpl.
    split; [tauto|]. split; [|done].
    intros _. eexists. repeat split; reflexivity.
  - rewrite (reject_failure db now request_user pk reason r e Hr He Hst). simpl.
    split; [split; [discriminate | tauto]|]. split; [discriminate | done].
Qed.

Lemma reject_iff_pending_witness :
  let e := mkEquipment "projector" good 5 5 true 0 0 in
  let r := mkBorrowRequest 8 1 3 "seminar" pending 2 20 40
             None None None None "" "" in
  let db := mkDB {[1 := e]} {[5 := r]} 2 6 in
  (rejection_reason <$> BorrowRequest_objects (reject 3 9 5 "booked out" db).2 !! 5)
  = Some "booked out".
Proof.
  intros e r db.
  destruct (reject_iff_pending db 3 9 5 "booked out" r e) as (Hiff & Hok & _);
    [reflexivity | reflexivity |].
  destruct (Hok (proj2 Hiff eq_refl)) as (r' & -> & _ & _ & Hreason & _).
  simpl. rewrite lookup_insert_eq. simpl. by rewrite Hreason.
Defined.

Lemma is_valid_accepts (db : DB) (now : Z) (inp : BorrowRequestInput)
    (e : Equipment) :
  Equipment_objects db !! in_equipment inp = Some e →
  1 ≤ in_quantity inp ≤ total_quantity e →
  in_purpose inp ≠ "" →
  in_borrow_from inp < in_borrow_until inp →
  now ≤ in_borrow_from inp →
  BorrowRequestSerializer_is_valid db now inp = inr (inp, e).
Proof.
  intros He Hq Hp Hint Hnow.
  unfold BorrowRequestSerializer_is_valid, BorrowRequestSerializer_fields,
    BorrowRequestSerializer_validate.
  rewrite He.
  destruct (Z.ltb_spec (in_quantity inp) 1); [lia|].
  rewrite bool_decide_eq_false_2 by done.
  destruct (Z.leb_spec (in_borrow_until inp) (in_borrow_from inp)); [lia|].
  destruct (Z.ltb_spec (in_borrow_from inp) now); [lia|].
  destruct (Z.gtb_spec (in_quantity inp) (total_quantity e)); [lia|done].
Qed.

(** X3. A create call whose payload names an existing equipment row, asks
    for a quantity between 1 and its total, has a purpose, an interval in
    order and a start not before the clock reading, is decided by the
    availability check alone, run with nothing excluded: when it passes,
    the answer is 201 and a pending row owned by the calling user, with no
    approval, issue or return stamps, is stored under the next key of the
    sequence, which advances by one; when it fails, the answer is the 400
    'Equipment not available for the requested period' and the database
    is unchanged.  With the sequence ahead of the stored keys, every
    stored row is still there afterwards. *)
Theorem create_valid_is_decided_by_availability (db : DB) (now request_user : Z)
    (inp : BorrowRequestInput) (e : Equipment) :
  Equipment_objects db !! in_equipment inp = Some e →
  1 ≤ in_quantity inp ≤ total_quantity e →
  in_purpose inp ≠ "" →
  in_borrow_from inp < in_borrow_until inp →
  now ≤ in_borrow_from inp →
  let r := mkBorrowRequest request_user (in_equipment inp) (in_quantity inp)
             (in_purpose inp) pending now (in_borrow_from inp)
             (in_borrow_until inp) None None None None
             (in_rejection_reason inp) (in_notes inp) in
  let pk := BorrowRequest_next_pk db in
  let result := BorrowRequestViewSet_create now request_user inp db in
  (check_availability db None r e = true →
     result = (mkResponse (BorrowRequestBody pk r) HTTP_201_CREATED,
               mkDB (Equipment_objects db)
                    (<[pk := r]> (BorrowRequest_objects db))
                    (Equipment_next_pk db) (pk + 1)))
  ∧ (check_availability db None r e = false →
     result = (mkResponse (ValidationErrorBody msg_not_available_create)
                 HTTP_400_BAD_REQUEST, db))
  ∧ (request_keys_fresh db →
     ∀ k x, BorrowRequest_objects db !! k = Some x →
            BorrowRequest_objects result.2 !! k = Some x).
Proof.
  intros He Hq Hp Hint Hnow r pk result. subst result.
  unfold BorrowRequestViewSet_create.
  rewrite (is_valid_accepts db now inp e He Hq Hp Hint Hnow).
  unfold BorrowRequestSerializer_create. fold r.
  destruct (check_availability db None r e); simpl.
  - split; [done|]. split; [done|].
    intros Hfresh k x Hk. rewrite lookup_insert_ne; [done|].
    intros <-. specialize (Hfresh pk (mk_is_Some _ _ Hk)). subst pk. lia.
  - split; [done|]. split; done.
Qed.

(** Scenario A of the specification: the second, overlapping request is
    refused at creation. *)
Lemma create_valid_is_decided_by_availability_witness :
  let e := mkEquipment "projector" good 5 5 true 0 0 in
  let held := mkBorrowRequest 7 1 3 "lecture" approved 0 10 30
                (Some 9) (Some 1) None None "" "" in
  let db := mkDB {[1 := e]} {[4 := held]} 2 5 in
  let inp := mkBorrowRequestInput 1 3 "seminar" 20 40 "" "" in
  BorrowRequestViewSet_create 2 8 inp db
  = (mkResponse (ValidationErrorBody msg_not_available_create)
       HTTP_400_BAD_REQUEST, db).
Proof.
  intros e held db inp.
  destruct (create_valid_is_decided_by_availability db 2 8 inp e)
    as (_ & Hno & _);
    [reflexivity | simpl; lia | discriminate | simpl; lia | simpl; lia |].
  apply Hno. vm_compute. reflexivity.
Defined.

(* --------------------------------------------------------------------- *)
(* A transition cannot be taken twice                                    *)
(* --------------------------------------------------------------------- *)

Lemma handle_outcome (now : Z) (c : Call) (db : DB) :
  status_code (handle now c db).1 = HTTP_200_OK →
  ∃ pk r e r' e',
    call_key c = Some pk
    ∧ BorrowRequest_objects db !! pk = Some r
    ∧ Equipment_objects db !! equipment r = Some e
    ∧ BorrowRequest_objects (handle now c db).2 !! pk = Some r'
    ∧ Equipment_objects (handle now c db).2 !! equipment r = Some e'
    ∧ status r ∈ call_sources c
    ∧ status r' = call_target c
    ∧ same_booking r r'.
Proof.
  destruct c as [u inp|u pk|u pk reason|pk|u pk n]; simpl.
  - unfold BorrowRequestViewSet_create.
    destruct (BorrowRequestSerializer_is_valid db now inp) as [[]|[d e]];
      try discriminate.
    destruct (BorrowRequestSerializer_create db now u d e) as [[]|[[? ?] ?]];
      discriminate.
  - destruct (get_object db pk) as [[r e]|] eqn:Hg;
      [|unfold approve; rewrite Hg; discriminate].
    apply get_object_inv in Hg as [Hr He].
    destruct (decide (status r = pending
                      ∧ check_availability db (Some pk) r e = true))
      as [[Hst Hc]|Hno].
    + rewrite (approve_success db now u pk r e Hr He Hst Hc). simpl. intros _.
      eexists pk, r, e, _, e. rewrite lookup_insert_eq, Hst.
      repeat split; try done. repeat constructor.
    + rewrite (approve_failure db now u pk r e Hr He Hno). discriminate.
  - destruct (get_object db pk) as [[r e]|] eqn:Hg;
      [|unfold reject; rewrite Hg; discriminate].
    apply get_object_inv in Hg as [Hr He].
    destruct (decide (status r = pending)) as [Hst|Hst].
    + rewrite (reject_success db now u pk reason r e Hr He Hst). simpl.
      intros _. eexists pk, r, e, _, e. rewrite lookup_insert_eq, Hst.
      repeat split; try done. repeat constructor.
    + rewrite (reject_failure db now u pk reason r e Hr He Hst). discriminate.
  - destruct (get_object db pk) as [[r e]|] eqn:Hg;
      [|unfold issue; rewrite Hg; discriminate].
    apply get_object_inv in Hg as [Hr He].
    destruct (decide (status r = approved ∧ quantity r ≤ available_quantity e))
      as [[Hst Hav]|Hno].
    + rewrite (issue_success db now pk r e Hr He Hst Hav). simpl. intros _.
      eexists pk, r, e, _, _. rewrite !lookup_insert_eq, Hst.
      repeat split; try done. repeat constructor.
    + destruct (issue_failure db now pk r e Hr He Hno) as [msg ->].
      discriminate.
  - destruct (get_object_as u db pk) as [[r e]|] eqn:Hg;
      [|unfold return_equipment; rewrite Hg; discriminate].
    apply get_object_as_inv in Hg as (Hr & He & Hv).
    destruct (decide (status r = issued ∨ status r = overdue)) as [Hst|Hst].
    + rewrite (return_success db now u pk n r e Hr He Hv Hst). simpl. intros _.
      eexists pk, r, e, _, _. rewrite !lookup_insert_eq.
      do 5 (split; [done|]).
      split; [destruct Hst as [-> | ->]; repeat constructor|].
      split; by destruct (py_truthy n).
    + rewrite (return_failure db now u pk n r e Hr He Hv Hst). discriminate.
Qed.

(** A handler refuses a request whose status it does not accept, with a
    400 when it finds the request and a 404 when the request is outside
    the queryset of the caller. *)
Lemma handle_refuses (now : Z) (c : Call) (db : DB) (pk : Z)
    (r : BorrowRequest) (e : Equipment) :
  call_key c = Some pk →
  BorrowRequest_objects db !! pk = Some r →
  Equipment_objects db !! equipment r = Some e →
  status r ∉ call_sources c →
  (handle now c db).2 = db
  ∧ (call_sees c r →
     status_code (handle now c db).1 = HTTP_400_BAD_REQUEST)
  ∧ (¬ call_sees c r →
     status_code (handle now c db).1 = HTTP_404_NOT_FOUND).
Proof.
  intros Hc Hr He Hs.
  destruct c as [u inp|u k|u k reason|k|u k n]; simpl in *; simplify_eq.
  - rewrite (approve_failure db now u pk r e Hr He); [by repeat split|].
    intros [Hst _]. apply Hs. rewrite Hst. repeat constructor.
  - rewrite (reject_failure db now u pk reason r e Hr He); [by repeat split|].
    intros Hst. apply Hs. rewrite Hst. repeat constructor.
  - destruct (issue_failure db now pk r e Hr He) as [msg ->];
      [|by repeat split].
    intros [Hst _]. apply Hs. rewrite Hst. repeat constructor.
  - destruct (decide (visible_to u r)) as [Hv|Hv].
    + rewrite (return_failure db now u pk n r e Hr He Hv); [by repeat split|].
      intros [Hst|Hst]; apply Hs; rewrite Hst; repeat constructor.
    + rewrite (return_hidden db now u pk n r Hr Hv). by repeat split.
Qed.

Lemma call_target_not_source (c : Call) : call_target c ∉ call_sources c.
Proof.
  destruct c; simpl; intros H;
    repeat (apply elem_of_cons in H as [H|H]; [discriminate|]);
    by apply elem_of_nil in H.
Qed.

(** X4. A lifecycle transition cannot be taken twice: after an approve,
    reject, issue or return call has answered 200, a further call on the
    same request that accepts the same statuses, at any clock reading,
    with any arguments and by any caller, leaves the database as the
    first call left it, so a repeated issue or return moves the stock
    counter once only; it answers 400 when the handler finds the request
    (always for the staff-gated approve, reject and issue) and 404 when
    the request is outside the queryset of the user calling
    return_equipment. *)
Theorem transition_cannot_repeat (db : DB) (now now' : Z) (c c' : Call) :
  status_code (handle now c db).1 = HTTP_200_OK →
  call_key c' = call_key c →
  call_sources c' = call_sources c →
  let db1 := (handle now c db).2 in
  (handle now' c' db1).2 = db1
  ∧ ∃ pk r',
      call_key c' = Some pk
      ∧ BorrowRequest_objects db1 !! pk = Some r'
      ∧ status r' = call_target c
      ∧ (call_sees c' r' →
         status_code (handle now' c' db1).1 = HTTP_400_BAD_REQUEST)
      ∧ (¬ call_sees c' r' →
         status_code (handle now' c' db1).1 = HTTP_404_NOT_FOUND).
Proof.
  intros Hok Hkey Hsrc db1. subst db1.
  destruct (handle_outcome now c db Hok)
    as (pk & r & e & r' & e' & Hk & Hr & He & Hr' & He' & Hs & Ht & Hsame).
  destruct (handle_refuses now' c' (handle now c db).2 pk r' e')
    as (Hdb & H400 & H404).
  - congruence.
  - done.
  - destruct Hsame as (_ & -> & _). done.
  - rewrite Hsrc, Ht. apply call_target_not_source.
  - split; [done|]. exists pk, r'. split; [congruence|]. by repeat split.
Qed.

Lemma transition_cannot_repeat_witness :
  let e := mkEquipment "projector" good 5 3 true 0 0 in
  let r := mkBorrowRequest 7 1 2 "lecture" issued 0 10 20
             (Some 9) (Some 1) (Some 3) None "" "" in
  let db := mkDB {[1 := e]} {[4 := r]} 2 5 in
  let db1 := (handle 30 (ReturnEquipment (mkUser 9 staff) 4 "") db).2 in
  (available_quantity <$> Equipment_objects db1 !! 1) = Some 5
  ∧ (handle 31 (ReturnEquipment (mkUser 9 staff) 4 "again") db1).2 = db1
  ∧ (handle 32 (ReturnEquipment (mkUser 8 student) 4 "again") db1).2 = db1.
Proof.
  intros e r db db1. split; [vm_compute; reflexivity|]. split.
  - apply (transition_cannot_repeat db 30 31
             (ReturnEquipment (mkUser 9 staff) 4 "")
             (ReturnEquipment (mkUser 9 staff) 4 "again")); reflexivity.
  - apply (transition_cannot_repeat db 30 32
             (ReturnEquipment (mkUser 9 staff) 4 "")
             (ReturnEquipment (mkUser 8 student) 4 "again")); reflexivity.
Defined.

(* --------------------------------------------------------------------- *)
(* The history of a request row                                          *)
(* --------------------------------------------------------------------- *)

Lemma same_booking_refl (r : BorrowRequest) : same_booking r r.
Proof. by repeat split. Qed.

Lemma same_booking_trans (r1 r2 r3 : BorrowRequest) :
  same_booking r1 r2 → same_booking r2 r3 → same_booking r1 r3.
Proof. unfold same_booking. intros ? ?. intuition congruence. Qed.

Lemma writes_request_keys_fresh (db db' : DB) :
  writes db db' → request_keys_fresh db → request_keys_fresh db'.
Proof.
  intros Hw Hf k. destruct Hw; simpl; try apply Hf.
  - intros [x Hx]. apply lookup_insert_Some in Hx as [[<- _]|[_ Hx]]; [lia|].
    specialize (Hf k (mk_is_Some _ _ Hx)). lia.
  - intros [x Hx]. apply lookup_insert_Some in Hx as [[<- _]|[_ Hx]]; eauto.
  - intros [x Hx]. apply lookup_insert_Some in Hx as [[<- _]|[_ Hx]]; eauto.
  - intros [x Hx]. apply lookup_insert_Some in Hx as [[<- _]|[_ Hx]]; eauto.
  - intros [x Hx]. apply lookup_insert_Some in Hx as [[<- _]|[_ Hx]]; eauto.
Qed.

(** One call leaves a stored row in place, with the same booking, and
    either untouched or moved along one transition. *)
Lemma writes_history (db db' : DB) (pk : Z) (r : BorrowRequest) :
  writes db db' →
  request_keys_fresh db →
  BorrowRequest_objects db !! pk = Some r →
  ∃ r', BorrowRequest_objects db' !! pk = Some r'
        ∧ same_booking r r'
        ∧ (r' = r ∨ transition (status r) (status r')).
Proof.
  intros Hw Hf Hr.
  assert (Hkeep : ∃ r', Some r = Some r' ∧ same_booking r r'
                        ∧ (r' = r ∨ transition (status r) (status r')))
    by (exists r; split; [done|]; split; [apply same_booking_refl | by left]).
  destruct Hw as [|x Hst Hqr|now u k x e Hx He Hst Hc|now u k reason x Hx Hst
                  |now k x e Hx He Hst Hav|now k n x e Hx He Hst]; simpl.
  - by rewrite Hr.
  - rewrite lookup_insert_ne; [by rewrite Hr|].
    intros <-. specialize (Hf _ (mk_is_Some _ _ Hr)). lia.
  - destruct (decide (k = pk)) as [->|Hne];
      [|by rewrite lookup_insert_ne, Hr].
    rewrite lookup_insert_eq. simplify_eq. eexists. split; [done|].
    split; [by repeat split|]. right. simpl. rewrite Hst. constructor.
  - destruct (decide (k = pk)) as [->|Hne];
      [|by rewrite lookup_insert_ne, Hr].
    rewrite lookup_insert_eq. simplify_eq. eexists. split; [done|].
    split; [by repeat split|]. right. simpl. rewrite Hst. constructor.
  - destruct (decide (k = pk)) as [->|Hne];
      [|by rewrite lookup_insert_ne, Hr].
    rewrite lookup_insert_eq. simplify_eq. eexists. split; [done|].
    split; [by repeat split|]. right. simpl. rewrite Hst. constructor.
  - destruct (decide (k = pk)) as [->|Hne];
      [|by rewrite lookup_insert_ne, Hr].
    rewrite lookup_insert_eq. simplify_eq. eexists. split; [done|].
    split; [by destruct (py_truthy n)|]. right.
    destruct (py_truthy n); simpl; destruct Hst as [-> | ->]; constructor.
Qed.

(** X5. With the request sequence ahead of the stored keys, no sequence of
    lifecycle calls deletes a request or changes its requester, equipment,
    quantity, purpose, request date or interval, and its status only moves
    along pending -> approved, pending -> rejected, approved -> issued,
    issued -> returned and overdue -> returned. *)
Theorem request_history_is_append_only (db : DB) (calls : list (Z * Call))
    (pk : Z) (r : BorrowRequest) :
  request_keys_fresh db →
  BorrowRequest_objects db !! pk = Some r →
  ∃ r', BorrowRequest_objects (run calls db) !! pk = Some r'
        ∧ same_booking r r'
        ∧ rtc transition (status r) (status r').
Proof.
  revert db r. induction calls as [|[now c] calls IH]; intros db r Hf Hr; simpl.
  - exists r. split; [done|]. split; [apply same_booking_refl | done].
  - pose proof (handle_writes now c db) as Hw.
    destruct (writes_history db _ pk r Hw Hf Hr) as (r1 & Hr1 & Hb1 & Hs1).
    destruct (IH _ r1 (writes_request_keys_fresh _ _ Hw Hf) Hr1)
      as (r' & Hr' & Hb' & Hs').
    exists r'. split; [done|]. split; [by eapply same_booking_trans|].
    destruct Hs1 as [->|Hs1]; [done | by eapply rtc_l].
Qed.

Lemma request_history_is_append_only_witness :
  let e := mkEquipment "projector" good 5 5 true 0 0 in
  let r := mkBorrowRequest 7 1 2 "lecture" pending 0 10 20
             None None None None "" "" in
  let db := mkDB {[1 := e]} {[4 := r]} 2 5 in
  let calls := [(1, Approve 9 4); (2, Issue 4);
                (3, ReturnEquipment (mkUser 9 staff) 4 "fine")] in
  ∃ r', BorrowRequest_objects (run calls db) !! 4 = Some r'
        ∧ same_booking r r' ∧ status r' = returned.
Proof.
  intros e r db calls.
  destruct (request_history_is_append_only db calls 4 r) as (r' & Hr' & Hb & _).
  - intros k [x Hx]. unfold db in Hx. simpl in Hx.
    apply lookup_singleton_Some in Hx as [<- _]. simpl. lia.
  - reflexivity.
  - exists r'. split; [exact Hr'|]. split; [exact Hb|].
    vm_compute in Hr'. by injection Hr' as <-.
Defined.

(** X6. With the request sequence ahead of the stored keys, a request that
    is rejected, returned or cancelled is never written again: after any
    sequence of lifecycle calls its row is the same in every field. *)
Theorem closed_request_is_frozen (db : DB) (calls : list (Z * Call))
    (pk : Z) (r : BorrowRequest) :
  request_keys_fresh db →
  BorrowRequest_objects db !! pk = Some r →
  status r = rejected ∨ status r = returned ∨ status r = cancelled →
  BorrowRequest_objects (run calls db) !! pk = Some r.
Proof.
  revert db. induction calls as [|[now c] calls IH]; intros db Hf Hr Hst;
    simpl; [done|].
  pose proof (handle_writes now c db) as Hw.
  destruct (writes_history db _ pk r Hw Hf Hr) as (r1 & Hr1 & _ & [->|Ht]).
  - apply IH; [by eapply writes_request_keys_fresh | done | done].
  - exfalso. destruct Hst as [Hst|[Hst|Hst]]; rewrite Hst in Ht; inversion Ht.
Qed.

Lemma closed_request_is_frozen_witness :
  let e := mkEquipment "projector" good 5 5 true 0 0 in
  let r := mkBorrowRequest 7 1 2 "lecture" returned 0 10 20
             (Some 9) (Some 1) (Some 2) (Some 3) "" "fine" in
  let db := mkDB {[1 := e]} {[4 := r]} 2 5 in
  let calls := [(4, Approve 9 4); (5, Issue 4);
                (6, ReturnEquipment (mkUser 9 staff) 4 "twice");
                (7, Reject 9 4 "late")] in
  BorrowRequest_objects (run calls db) !! 4 = Some r.
Proof.
  intros e r db calls.
  apply (closed_request_is_frozen db calls 4 r).
  - intros k [x Hx]. unfold db in Hx. simpl in Hx.
    apply lookup_singleton_Some in Hx as [<- _]. simpl. lia.
  - reflexivity.
  - right. left. reflexivity.
Defined.

Lemma writes_backward (db db' : DB) (pk : Z) (r' : BorrowRequest) :
  writes db db' →
  BorrowRequest_objects db' !! pk = Some r' →
  status r' = cancelled ∨ status r' = overdue →
  BorrowRequest_objects db !! pk = Some r'.
Proof.
  intros Hw Hr' Hst.
  destruct Hw as [|x Hx Hqr|now u k x e Hx He Hsx Hc|now u k reason x Hx Hsx
                  |now k x e Hx He Hsx Hav|now k n x e Hx He Hsx];
    simpl in Hr'; [done|..];
    apply lookup_insert_Some in Hr' as [[_ <-]|[_ Hr']]; try done;
    simpl in Hst; try (destruct Hst; congruence).
  destruct (py_truthy n); simpl in Hst; destruct Hst; discriminate.
Qed.

(** X7. No lifecycle call writes the status cancelled or overdue: a row
    that has one of them after a sequence of calls was stored under the
    same key, identical in every field, before the sequence. *)
Theorem cancelled_and_overdue_are_never_written (db : DB)
    (calls : list (Z * Call)) (pk : Z) (r' : BorrowRequest) :
  BorrowRequest_objects (run calls db) !! pk = Some r' →
  status r' = cancelled ∨ status r' = overdue →
  BorrowRequest_objects db !! pk = Some r'.
Proof.
  revert db. induction calls as [|[now c] calls IH]; intros db Hr' Hst;
    simpl in *; [done|].
  apply (writes_backward db _ pk r' (handle_writes now c db)); [|done].
  by apply IH.
Qed.

Lemma cancelled_and_overdue_are_never_written_witness :
  let e := mkEquipment "projector" good 5 3 true 0 0 in
  let r := mkBorrowRequest 7 1 2 "lecture" overdue 0 10 20
             (Some 9) (Some 1) (Some 2) None "" "" in
  let db := mkDB {[1 := e]} {[4 := r]} 2 5 in
  let calls := [(30, Approve 9 4); (31, Issue 4)] in
  BorrowRequest_objects db !! 4 = Some r.
Proof.
  intros e r db calls.
  apply (cancelled_and_overdue_are_never_written db calls 4 r);
    [vm_compute; reflexivity | right; reflexivity].
Defined.

(* --------------------------------------------------------------------- *)
(* The stock counter as total minus what is handed out                   *)
(* --------------------------------------------------------------------- *)

Lemma table_sum_nonneg P (m : gmap Z BorrowRequest) :
  (∀ k r, m !! k = Some r → 0 ≤ quantity r) →
  0 ≤ table_sum P m.
Proof.
  induction m as [|k r m Hk IH] using map_ind; intros Hq.
  - rewrite table_sum_empty. lia.
  - rewrite table_sum_insert_fresh by done.
    assert (0 ≤ table_sum P m).
    { apply IH. intros k' r' Hk'. apply (Hq k').
      rewrite lookup_insert_ne; [done|]. intros ->. congruence. }
    pose proof (weight_nonneg P k r (Hq k r (lookup_insert_eq _ _ _))). lia.
Qed.

Lemma table_sum_none P (m : gmap Z BorrowRequest) :
  (∀ k r, m !! k = Some r → P (k, r) = false) →
  table_sum P m = 0.
Proof.
  induction m as [|k r m Hk IH] using map_ind; intros HP.
  - apply table_sum_empty.
  - rewrite table_sum_insert_fresh by done.
    unfold weight. rewrite (HP k r) by apply lookup_insert_eq.
    rewrite IH; [done|]. intros k' r' Hk'. apply HP.
    rewrite lookup_insert_ne; [done|]. intros ->. congruence.
Qed.

(** A row that passes the restriction weighs at most the whole sum. *)
Lemma table_sum_ge_row P (m : gmap Z BorrowRequest) (k : Z) (r : BorrowRequest) :
  (∀ k r, m !! k = Some r → 0 ≤ quantity r) →
  m !! k = Some r →
  weight P (k, r) ≤ table_sum P m.
Proof.
  intros Hq Hk. rewrite (table_sum_delete P m k r Hk).
  assert (0 ≤ table_sum P (delete k m)); [|lia].
  apply table_sum_nonneg. intros k' r' Hk'.
  apply lookup_delete_Some in Hk' as [_ Hk']. by eapply Hq.
Qed.

Lemma out_lookup_status (equipment_pk k : Z) (r : BorrowRequest) :
  status_in (status r) [issued; overdue] = false →
  out_lookup equipment_pk (k, r) = false.
Proof.
  intros H. unfold out_lookup. simpl. rewrite H. by rewrite andb_false_r.
Qed.

Lemma out_lookup_own (equipment_pk k : Z) (r : BorrowRequest) :
  equipment r = equipment_pk →
  status_in (status r) [issued; overdue] = true →
  out_lookup equipment_pk (k, r) = true.
Proof. intros <- H. unfold out_lookup. simpl. by rewrite Z.eqb_refl, H. Qed.

Lemma out_lookup_other (equipment_pk k : Z) (r : BorrowRequest) :
  equipment r ≠ equipment_pk →
  out_lookup equipment_pk (k, r) = false.
Proof.
  intros H. unfold out_lookup. simpl.
  by rewrite (proj2 (Z.eqb_neq _ _) H).
Qed.

Lemma writes_stock_identity (db db' : DB) :
  writes db db' →
  quantities_valid db → request_keys_fresh db ∧ stock_identity db →
  request_keys_fresh db' ∧ stock_identity db'.
Proof.
  intros Hw Hq [Hf Hinv]. split; [by eapply writes_request_keys_fresh|].
  assert (Hq0 : ∀ k r0, BorrowRequest_objects db !! k = Some r0 → 0 ≤ quantity r0).
  { intros k r0 Hk. specialize (Hq k r0 Hk). lia. }
  destruct Hw as [|r Hst Hqr|now u pk r e Hr He Hst Hc|now u pk reason r Hr Hst
                  |now pk r e Hr He Hst Hav|now pk n r e Hr He Hst];
    intros k x Hx; unfold quantity_out; simpl in *.
  - by apply Hinv.
  - rewrite table_sum_insert_fresh.
    + unfold weight. rewrite out_lookup_status by (by rewrite Hst).
      by apply Hinv.
    + destruct (BorrowRequest_objects db !! BorrowRequest_next_pk db) eqn:Hn;
        [|done].
      specialize (Hf _ (mk_is_Some _ _ Hn)). lia.
  - rewrite (table_sum_insert_same _ _ pk r _ Hr); [by apply Hinv|].
    unfold weight. by rewrite !out_lookup_status by (by rewrite ?Hst).
  - rewrite (table_sum_insert_same _ _ pk r _ Hr); [by apply Hinv|].
    unfold weight. by rewrite !out_lookup_status by (by rewrite ?Hst).
  - rewrite (table_sum_insert _ _ pk r _ Hr). unfold weight.
    rewrite (out_lookup_status k pk r) by (by rewrite Hst).
    pose proof (Hq _ _ Hr) as Hqr.
    apply lookup_insert_Some in Hx as [[<- <-]|[Hne Hx]]; simpl.
    + rewrite (out_lookup_own (equipment r) pk
                 (set_issued_date (Some now) (set_status issued r))) by done.
      pose proof (Hinv _ _ He) as Hid. unfold quantity_out in Hid.
      pose proof (table_sum_nonneg (out_lookup (equipment r)) _ Hq0). lia.
    + rewrite out_lookup_other by done.
      pose proof (Hinv _ _ Hx) as Hid. unfold quantity_out in Hid. lia.
  - rewrite (table_sum_insert _ _ pk r _ Hr). unfold weight.
    assert (Hnew : ∀ j, out_lookup j
      (pk, if py_truthy n
           then set_notes n (set_returned_date (Some now) (set_status returned r))
           else set_returned_date (Some now) (set_status returned r)) = false).
    { intros j. apply out_lookup_status. by destruct (py_truthy n). }
    rewrite Hnew.
    assert (Hold : status_in (status r) [issued; overdue] = true).
    { unfold status_in. rewrite bool_decide_eq_true, !elem_of_cons. tauto. }
    pose proof (Hq _ _ Hr) as Hqr.
    apply lookup_insert_Some in Hx as [[<- <-]|[Hne Hx]]; simpl.
    + pose proof (Hinv _ _ He) as Hid. unfold quantity_out in Hid.
      pose proof (table_sum_ge_row (out_lookup (equipment r)) _ pk r Hq0 Hr)
        as Hge.
      unfold weight in Hge.
      rewrite (out_lookup_own (equipment r) pk r eq_refl Hold) in *.
      simpl in Hge. lia.
    + pose proof (Hinv _ _ Hx) as Hid. unfold quantity_out in Hid.
      rewrite (out_lookup_other k pk r) by done. lia.
Qed.

(** X8. With stored quantities of at least 1 and the request sequence
    ahead of the stored keys, the identity
      available_quantity + (quantities of the issued or overdue requests
      on the equipment) = total_quantity
    is kept by every sequence of lifecycle calls; wherever it holds the
    counter is at most the total. *)
Theorem stock_identity_preserved (db : DB) (calls : list (Z * Call)) :
  quantities_valid db →
  request_keys_fresh db →
  stock_identity db →
  stock_identity (run calls db)
  ∧ ∀ pk e, Equipment_objects (run calls db) !! pk = Some e →
      available_quantity e = total_quantity e - quantity_out (run calls db) pk
      ∧ available_quantity e ≤ total_quantity e.
Proof.
  intros Hq Hf Hinv.
  destruct (run_preserves (λ db, request_keys_fresh db ∧ stock_identity db)
              writes_stock_identity calls db Hq (conj Hf Hinv))
    as (Hq' & Hf' & Hinv').
  split; [done|]. intros pk e He.
  pose proof (Hinv' pk e He) as Hid.
  assert (0 ≤ quantity_out (run calls db) pk); [|lia].
  apply table_sum_nonneg. intros k r Hk. specialize (Hq' k r Hk). lia.
Qed.

Lemma stock_identity_preserved_witness :
  let e := mkEquipment "projector" good 5 5 true 0 0 in
  let db := mkDB {[1 := e]} ∅ 2 1 in
  let calls :=
    [(0, CreateRequest 7 (mkBorrowRequestInput 1 3 "lecture" 10 30 "" ""));
     (1, Approve 9 1);
     (2, CreateRequest 8 (mkBorrowRequestInput 1 2 "seminar" 40 50 "" ""));
     (3, Approve 9 2);
     (4, Issue 1);
     (5, Issue 2);
     (6, ReturnEquipment (mkUser 7 student) 1 "")] in
  stock_identity (run calls db)
  ∧ (available_quantity <$> Equipment_objects (run calls db) !! 1) = Some 3.
Proof.
  intros e db calls. split; [|vm_compute; reflexivity].
  apply (stock_identity_preserved db calls).
  - intros pk r Hr. unfold db in Hr. simpl in Hr.
    rewrite lookup_empty in Hr. discriminate.
  - intros pk [x Hx]. unfold db in Hx. simpl in Hx.
    rewrite lookup_empty in Hx. discriminate.
  - intros pk x Hx. unfold quantity_out, db in *. simpl in *.
    rewrite table_sum_empty.
    apply lookup_singleton_Some in Hx as [_ <-]. simpl. lia.
Defined.

(* --------------------------------------------------------------------- *)
(* Databases built through the API                                       *)
(* --------------------------------------------------------------------- *)

Lemma is_valid_inv (db : DB) (now : Z) (inp d : BorrowRequestInput)
    (e : Equipment) :
  BorrowRequestSerializer_is_valid db now inp = inr (d, e) →
  d = inp
  ∧ Equipment_objects db !! in_equipment inp = Some e
  ∧ 1 ≤ in_quantity inp ≤ total_quantity e
  ∧ in_borrow_from inp < in_borrow_until inp
  ∧ now ≤ in_borrow_from inp.
Proof.
  unfold BorrowRequestSerializer_is_valid, BorrowRequestSerializer_fields,
    BorrowRequestSerializer_validate.
  destruct (Equipment_objects db !! in_equipment inp) as [e0|]; [|done].
  destruct (Z.ltb_spec (in_quantity inp) 1); [done|].
  destruct (bool_decide (in_purpose inp = "")); [done|].
  destruct (Z.leb_spec (in_borrow_until inp) (in_borrow_from inp)); [done|].
  destruct (Z.ltb_spec (in_borrow_from inp) now); [done|].
  destruct (Z.gtb_spec (in_quantity inp) (total_quantity e0)); [done|].
  intros [= <- <-]. repeat split; try done; lia.
Qed.

(** What the database is after a lifecycle call: as before, or with the
    row of a valid create added under the next key, or with one request
    row and the equipment row it names rewritten, booking and total kept. *)
Lemma handle_cases (now : Z) (c : Call) (db : DB) :
  (handle now c db).2 = db
  ∨ (∃ u inp e,
       Equipment_objects db !! in_equipment inp = Some e
       ∧ 1 ≤ in_quantity inp ≤ total_quantity e
       ∧ in_borrow_from inp < in_borrow_until inp
       ∧ (handle now c db).2
         = mkDB (Equipment_objects db)
             (<[BorrowRequest_next_pk db :=
                  mkBorrowRequest u (in_equipment inp) (in_quantity inp)
                    (in_purpose inp) pending now (in_borrow_from inp)
                    (in_borrow_until inp) None None None None
                    (in_rejection_reason inp) (in_notes inp)]>
                (BorrowRequest_objects db))
             (Equipment_next_pk db) (BorrowRequest_next_pk db + 1))
  ∨ (∃ pk r e r' e',
       BorrowRequest_objects db !! pk = Some r
       ∧ Equipment_objects db !! equipment r = Some e
       ∧ same_booking r r'
       ∧ total_quantity e' = total_quantity e
       ∧ (handle now c db).2
         = mkDB (<[equipment r := e']> (Equipment_objects db))
                (<[pk := r']> (BorrowRequest_objects db))
                (Equipment_next_pk db) (BorrowRequest_next_pk db)).
Proof.
  destruct c as [u inp|u pk|u pk reason|pk|u pk n]; simpl.
  - unfold BorrowRequestViewSet_create.
    destruct (BorrowRequestSerializer_is_valid db now inp) as [err|[d e]] eqn:Hv;
      [by left|].
    apply is_valid_inv in Hv as (-> & He & Hq & Hint & _).
    unfold BorrowRequestSerializer_create.
    destruct (check_availability _ _ _ _); simpl; [|by left].
    right. left. by exists u, inp, e.
  - destruct (get_object db pk) as [[r e]|] eqn:Hg;
      [|unfold approve; rewrite Hg; by left].
    apply get_object_inv in Hg as [Hr He].
    destruct (decide (status r = pending
                      ∧ check_availability db (Some pk) r e = true))
      as [[Hst Hc]|Hno].
    + rewrite (approve_success db now u pk r e Hr He Hst Hc). simpl.
      right. right.
      exists pk, r, e,
        (set_approved_date (Some now)
           (set_approved_by (Some u) (set_status approved r))), e.
      rewrite (insert_id _ _ _ He). by repeat split.
    + rewrite (approve_failure db now u pk r e Hr He Hno). by left.
  - destruct (get_object db pk) as [[r e]|] eqn:Hg;
      [|unfold reject; rewrite Hg; by left].
    apply get_object_inv in Hg as [Hr He].
    destruct (decide (status r = pending)) as [Hst|Hst].
    + rewrite (reject_success db now u pk reason r e Hr He Hst). simpl.
      right. right.
      exists pk, r, e,
        (set_approved_date (Some now)
           (set_approved_by (Some u)
              (set_rejection_reason reason (set_status rejected r)))), e.
      rewrite (insert_id _ _ _ He). by repeat split.
    + rewrite (reject_failure db now u pk reason r e Hr He Hst). by left.
  - destruct (get_object db pk) as [[r e]|] eqn:Hg;
      [|unfold issue; rewrite Hg; by left].
    apply get_object_inv in Hg as [Hr He].
    destruct (decide (status r = approved ∧ quantity r ≤ available_quantity e))
      as [[Hst Hav]|Hno].
    + rewrite (issue_success db now pk r e Hr He Hst Hav). simpl.
      right. right.
      exists pk, r, e, (set_issued_date (Some now) (set_status issued r)).
      eexists. do 3 (split; [done|]). split; [|reflexivity]. done.
    + destruct (issue_failure db now pk r e Hr He Hno) as [msg ->]. by left.
  - destruct (get_object_as u db pk) as [[r e]|] eqn:Hg;
      [|unfold return_equipment; rewrite Hg; by left].
    apply get_object_as_inv in Hg as (Hr & He & Hv).
    destruct (decide (status r = issued ∨ status r = overdue)) as [Hst|Hst].
    + rewrite (return_success db now u pk n r e Hr He Hv Hst). simpl.
      right. right. eexists pk, r, e, _, _.
      split; [done|]. split; [done|].
      split; [|split; [|reflexivity]]; [by destruct (py_truthy n) | done].
    + rewrite (return_failure db now u pk n r e Hr He Hv Hst). by left.
Qed.

Lemma clean_same_booking (r r' : BorrowRequest) (e e' : Equipment) :
  same_booking r r' →
  total_quantity e' = total_quantity e →
  BorrowRequest_clean r' e' = BorrowRequest_clean r e.
Proof.
  intros (_ & _ & Hq & _ & _ & Hf & Hu) Ht. unfold BorrowRequest_clean.
  by rewrite Hq, Hf, Hu, Ht.
Qed.

Lemma handle_integrity (now : Z) (c : Call) (db : DB) :
  equipment_keys_fresh db ∧ references_valid db ∧ requests_clean db →
  equipment_keys_fresh (handle now c db).2
  ∧ references_valid (handle now c db).2
  ∧ requests_clean (handle now c db).2.
Proof.
  intros (Hf & Href & Hclean).
  destruct (handle_cases now c db)
    as [->|[(u & inp & e & He & Hq & Hint & ->)
           |(pk & r & e & r' & e' & Hr & He & Hb & Ht & ->)]]; [done|..].
  - split; [done|]. split.
    + intros k x Hx. simpl in *.
      apply lookup_insert_Some in Hx as [[_ <-]|[_ Hx]]; [by simpl|by eauto].
    + intros k x y Hx Hy. simpl in *.
      apply lookup_insert_Some in Hx as [[_ <-]|[_ Hx]]; [|by eauto].
      simpl in *. simplify_eq. unfold BorrowRequest_clean. simpl.
      destruct (Z.leb_spec (in_borrow_until inp) (in_borrow_from inp)); [lia|].
      destruct (Z.gtb_spec (in_quantity inp) (total_quantity e)); [lia|done].
  - assert (Heq : equipment r' = equipment r) by by destruct Hb as (_ & ? & _).
    split; [|split].
    + intros k [x Hx]. simpl in *.
      apply lookup_insert_Some in Hx as [[<- _]|[_ Hx]]; eauto.
    + intros k x Hx. simpl in *. apply lookup_insert_is_Some'.
      apply lookup_insert_Some in Hx as [[_ <-]|[_ Hx]]; [left; congruence|].
      right. by eauto.
    + intros k x y Hx Hy. simpl in *.
      assert (Hold : ∃ x0, BorrowRequest_objects db !! k = Some x0
                           ∧ same_booking x0 x).
      { apply lookup_insert_Some in Hx as [[<- <-]|[_ Hx]]; [by exists r|].
        exists x. split; [done | apply same_booking_refl]. }
      destruct Hold as (x0 & Hx0 & Hb0).
      assert (Heq0 : equipment x = equipment x0) by by destruct Hb0 as (_ & ? & _).
      apply lookup_insert_Some in Hy as [[Hk <-]|[_ Hy]].
      * rewrite (clean_same_booking x0 x e e' Hb0 Ht).
        apply (Hclean k); [done | congruence].
      * rewrite (clean_same_booking x0 x y y Hb0 eq_refl).
        apply (Hclean k); [done | congruence].
Qed.

Lemma handle_well_formed (now : Z) (c : Call) (db : DB) :
  well_formed db → well_formed (handle now c db).2.
Proof.
  intros [Hrk Hek Href Hq Hcl Hcnt Hst Hcap].
  pose proof (handle_writes now c db) as Hw.
  destruct (handle_integrity now c db) as (? & ? & ?); [done|].
  destruct (writes_stock_identity _ _ Hw Hq (conj Hrk Hst)) as [? ?].
  split; try done.
  - by eapply writes_quantities_valid.
  - by eapply writes_counter_invariant.
  - by eapply writes_capacity_invariant.
Qed.

Lemma equipment_create_cases (now : Z) (inp : EquipmentInput) (db : DB) :
  (EquipmentViewSet_create now inp db).2 = db
  ∨ ∃ e, 1 ≤ total_quantity e
         ∧ available_quantity e = total_quantity e
         ∧ (EquipmentViewSet_create now inp db).2
           = mkDB (<[Equipment_next_pk db := e]> (Equipment_objects db))
                  (BorrowRequest_objects db)
                  (Equipment_next_pk db + 1) (BorrowRequest_next_pk db).
Proof.
  unfold EquipmentViewSet_create, EquipmentSerializer_is_valid.
  destruct (bool_decide (in_name inp = "")); [by left|].
  destruct (Z.ltb_spec (in_total_quantity inp) 1); [by left|].
  right. unfold EquipmentSerializer_create, Equipment_save. simpl.
  rewrite Z.gtb_ltb, Z.ltb_irrefl. simpl. eexists. by repeat split.
Qed.

Lemma equipment_create_well_formed (now : Z) (inp : EquipmentInput) (db : DB) :
  well_formed db → well_formed (EquipmentViewSet_create now inp db).2.
Proof.
  intros Hwf. destruct (equipment_create_cases now inp db)
    as [->|(e & Htot & Hav & ->)]; [done|].
  destruct Hwf as [Hrk Hek Href Hq Hcl Hcnt Hst Hcap].
  assert (Hnew : Equipment_objects db !! Equipment_next_pk db = None).
  { destruct (Equipment_objects db !! Equipment_next_pk db) eqn:Hn; [|done].
    specialize (Hek _ (mk_is_Some _ _ Hn)). lia. }
  assert (Hnone : ∀ k r, BorrowRequest_objects db !! k = Some r →
                         equipment r ≠ Equipment_next_pk db).
  { intros k r Hr Heq. destruct (Href k r Hr) as [x Hx]. congruence. }
  split; simpl; try done.
  - intros k [x Hx]. simpl in *.
    apply lookup_insert_Some in Hx as [[<- _]|[_ Hx]]; [lia|].
    specialize (Hek k (mk_is_Some _ _ Hx)). lia.
  - intros k r Hr. simpl in *. apply lookup_insert_is_Some'. right. by eauto.
  - intros k r y Hr Hy. simpl in *.
    rewrite lookup_insert_ne in Hy by (intros Heq; by eapply Hnone).
    by eapply Hcl.
  - intros k x Hx. simpl in *.
    apply lookup_insert_Some in Hx as [[_ <-]|[_ Hx]]; [lia | by eauto].
  - intros k x Hx. unfold quantity_out. simpl in *.
    apply lookup_insert_Some in Hx as [[<- <-]|[_ Hx]]; [|by apply Hst].
    rewrite table_sum_none; [lia|].
    intros j r Hr. apply out_lookup_other. by eapply Hnone.
  - intros k x t Hx. unfold committed_at. simpl in *.
    apply lookup_insert_Some in Hx as [[<- <-]|[_ Hx]]; [|by apply Hcap].
    rewrite table_sum_none; [lia|].
    intros j r Hr. unfold committed_lookup. simpl.
    by rewrite (proj2 (Z.eqb_neq _ _) (Hnone j r Hr)).
Qed.

Lemma empty_db_well_formed : well_formed empty_db.
Proof.
  split; unfold empty_db; intros k; simpl.
  - intros [x Hx]. by rewrite lookup_empty in Hx.
  - intros [x Hx]. by rewrite lookup_empty in Hx.
  - intros r Hr. by rewrite lookup_empty in Hr.
  - intros r Hr. by rewrite lookup_empty in Hr.
  - intros r e Hr. by rewrite lookup_empty in Hr.
  - intros e He. by rewrite lookup_empty in He.
  - intros e He. by rewrite lookup_empty in He.
  - intros e t He. by rewrite lookup_empty in He.
Qed.

Lemma api_run_well_formed (calls : list (Z * ApiCall)) (db : DB) :
  well_formed db → well_formed (api_run calls db).
Proof.
  revert db. induction calls as [|[now c] calls IH]; intros db Hwf; simpl;
    [done|].
  apply IH. destruct c as [c|inp]; simpl;
    [by apply handle_well_formed | by apply equipment_create_well_formed].
Qed.

(** X9. Every database built from the empty one by equipment creations
    and lifecycle calls, and more generally from any database that has
    them, has all of these: both sequences ahead of the keys of their
    tables, every request naming a stored equipment row and passing
    clean() against it, every stored quantity at least 1,
    0 <= available <= total, available + handed out = total, and the
    capacity invariant. *)
Theorem api_keeps_well_formed :
  (∀ db calls, well_formed db → well_formed (api_run calls db))
  ∧ (∀ calls, well_formed (api_run calls empty_db)).
Proof.
  split; [intros db calls; apply api_run_well_formed|].
  intros calls. apply api_run_well_formed, empty_db_well_formed.
Qed.

Lemma api_keeps_well_formed_witness :
  let calls :=
    [(0, CreateEquipment (mkEquipmentInput "projector" good 5 (Some 9) true));
     (1, Lifecycle (CreateRequest 7
                      (mkBorrowRequestInput 1 3 "lecture" 10 30 "" "")));
     (2, Lifecycle (Approve 9 1));
     (3, Lifecycle (Issue 1))] in
  well_formed (api_run calls empty_db)
  ∧ (available_quantity <$> Equipment_objects (api_run calls empty_db) !! 1)
    = Some 2.
Proof.
  intros calls. split; [|vm_compute; reflexivity].
  destruct api_keeps_well_formed as [Hgen _].
  apply (Hgen empty_db calls), empty_db_well_formed.
Defined.

(* --------------------------------------------------------------------- *)
(* More on the availability check                                        *)
(* --------------------------------------------------------------------- *)

(** X10. With no negative quantity stored, check_availability is monotone:
    a candidate that passes still passes when its quantity is lowered and
    its interval is shrunk, on the same equipment and with the same
    excluded request. *)
Theorem check_availability_monotone (db : DB) (self_pk : option Z)
    (self self' : BorrowRequest) (e : Equipment) :
  quantities_valid db →
  equipment self' = equipment self →
  borrow_from self ≤ borrow_from self' →
  borrow_until self' ≤ borrow_until self →
  quantity self' ≤ quantity self →
  check_availability db self_pk self e = true →
  check_availability db self_pk self' e = true.
Proof.
  intros Hq Heq Hfrom Huntil Hqty Hc.
  apply check_availability_unfold in Hc. apply check_availability_unfold.
  etrans; [exact Hqty|]. etrans; [exact Hc|].
  apply Z.sub_le_mono_l. apply table_sum_mono.
  - intros k r Hk. specialize (Hq k r Hk). lia.
  - intros k r _. rewrite !lookup_counted. unfold counted, overlaps.
    rewrite Heq. intros (? & ? & [? ?] & ?). repeat split; try done; lia.
Qed.

Lemma check_availability_monotone_witness :
  let e := mkEquipment "projector" good 5 5 true 0 0 in
  let held := mkBorrowRequest 7 1 3 "lecture" approved 0 10 30
                (Some 9) (Some 1) None None "" "" in
  let db := mkDB {[1 := e]} {[4 := held]} 2 5 in
  let wide := mkBorrowRequest 8 1 2 "seminar" pending 2 20 40
                None None None None "" "" in
  let narrow := mkBorrowRequest 8 1 1 "seminar" pending 2 25 35
                  None None None None "" "" in
  check_availability db None narrow e = true.
Proof.
  intros e held db wide narrow.
  apply (check_availability_monotone db None wide narrow e);
    try (simpl; lia); try reflexivity.
  intros pk r Hr. unfold db in Hr. simpl in Hr.
  apply lookup_singleton_Some in Hr as [_ <-]. simpl. lia.
Defined.

(** X11. The availability check is sufficient for capacity but not
    necessary: with no negative quantity stored, a new candidate that
    passes fits within the total at every instant its interval covers;
    yet there is a database and a candidate that fits within the total at
    every instant and is refused, because the check adds up requests that
    overlap the candidate without overlapping each other. *)
Theorem check_availability_sufficient_not_necessary :
  (∀ db self e t,
     quantities_valid db →
     check_availability db None self e = true →
     covers self t = true →
     committed_at db (equipment self) t + quantity self ≤ total_quantity e)
  ∧ (∃ db self e,
       quantities_valid db
       ∧ Equipment_objects db !! equipment self = Some e
       ∧ (∀ t, committed_at db (equipment self) t + quantity self
               ≤ total_quantity e)
       ∧ check_availability db None self e = false).
Proof.
  split.
  - intros db self e t Hq Hc Hcov.
    apply check_availability_unfold in Hc.
    assert (committed_at db (equipment self) t
            ≤ table_sum
                (λ row, overlapping_lookup (equipment self) (borrow_from self)
                          (borrow_until self) row && exclude_pk None row)
                (BorrowRequest_objects db)); [|lia].
    apply table_sum_mono.
    + intros k r Hk. specialize (Hq k r Hk). lia.
    + intros k r _ Hcm. apply committed_lookup_true in Hcm as (Heq & Hs & Ht).
      unfold covers in Hcov. apply andb_true_iff in Hcov as [H1 H2].
      apply Z.leb_le in H1. apply Z.ltb_lt in H2.
      apply lookup_counted. unfold counted, overlaps.
      repeat split; [done | done | lia | lia | done].
  - set (e := mkEquipment "projector" good 5 5 true 0 0).
    set (r1 := mkBorrowRequest 7 1 3 "lecture" approved 0 1 2
                 (Some 9) (Some 0) None None "" "").
    set (r2 := mkBorrowRequest 8 1 3 "seminar" approved 0 2 3
                 (Some 9) (Some 0) None None "" "").
    exists (mkDB {[1 := e]} (<[2 := r2]> {[1 := r1]}) 2 3),
      (mkBorrowRequest 6 1 2 "workshop" pending 0 1 3
         None None None None "" ""), e.
    split; [|split; [done|split; [|by vm_compute]]].
    + intros k r Hr. simpl in Hr.
      apply lookup_insert_Some in Hr as [[_ <-]|[_ Hr]]; [simpl; lia|].
      apply lookup_singleton_Some in Hr as [_ <-]. simpl. lia.
    + intros t. unfold committed_at. simpl.
      rewrite table_sum_insert_fresh by done.
      rewrite <- insert_empty, table_sum_insert_fresh, table_sum_empty by done.
      unfold weight, committed_lookup, covers, status_in. simpl.
      destruct (Z.leb_spec 1 t), (Z.ltb_spec t 2), (Z.leb_spec 2 t),
        (Z.ltb_spec t 3); simpl; lia.
Qed.

Lemma check_availability_sufficient_not_necessary_witness :
  let e := mkEquipment "projector" good 5 5 true 0 0 in
  let held := mkBorrowRequest 7 1 3 "lecture" approved 0 10 30
                (Some 9) (Some 1) None None "" "" in
  let db := mkDB {[1 := e]} {[4 := held]} 2 5 in
  let self := mkBorrowRequest 8 1 2 "seminar" pending 2 20 40
                None None None None "" "" in
  committed_at db 1 25 + 2 ≤ 5.
Proof.
  intros e held db self.
  destruct check_availability_sufficient_not_necessary as [Hsound _].
  apply (Hsound db self e 25); [|reflexivity|reflexivity].
  intros pk r Hr. unfold db in Hr. simpl in Hr.
  apply lookup_singleton_Some in Hr as [_ <-]. simpl. lia.
Defined.

(** X12. The number the availability endpoint reports for an interval is
    the one create's check compares against: a new candidate on that
    equipment and interval passes check_availability exactly when its
    quantity is at most the reported available_quantity. *)
Theorem availability_agrees_with_check (fromisoformat : string → option Z)
    (db : DB) (pk : Z) (e : Equipment) (start end_ : string)
    (self : BorrowRequest) :
  Equipment_objects db !! pk = Some e →
  start ≠ "" → end_ ≠ "" →
  fromisoformat start = Some (borrow_from self) →
  fromisoformat end_ = Some (borrow_until self) →
  equipment self = pk →
  ∃ available,
    availability fromisoformat pk (Some start) (Some end_) db
    = mkResponse (AvailabilityBody pk (total_quantity e) available start end_)
        HTTP_200_OK
    ∧ (check_availability db None self e = true ↔ quantity self ≤ available).
Proof.
  intros He Hs Hend Ha Hb Heq. unfold availability. rewrite He. simpl.
  rewrite !bool_decide_eq_false_2 by done. simpl. rewrite Ha, Hb.
  eexists. split; [reflexivity|].
  rewrite check_availability_unfold, py_sum_filter, Heq.
  rewrite (table_sum_ext _
             (overlapping_lookup pk (borrow_from self) (borrow_until self)));
    [done|].
  intros k r _. unfold exclude_pk. by rewrite andb_true_r.
Qed.

Lemma availability_agrees_with_check_witness :
  let fromisoformat := λ s : string,
    if bool_decide (s = "day1") then Some 1
    else if bool_decide (s = "day3") then Some 3 else None in
  let self := mkBorrowRequest 6 1 1 "workshop" pending 0 1 3
                None None None None "" "" in
  check_availability back_to_back None self
    (mkEquipment "projector" good 5 5 true 0 0) = false.
Proof.
  intros fromisoformat self.
  destruct (availability_agrees_with_check fromisoformat back_to_back 1
              (mkEquipment "projector" good 5 5 true 0 0) "day1" "day3" self)
    as (available & Hresp & Hiff);
    [reflexivity | discriminate | discriminate | reflexivity | reflexivity
    | reflexivity |].
  vm_compute in Hresp. injection Hresp as <-.
  destruct (check_availability back_to_back None self _); [|reflexivity].
  destruct Hiff as [Hle _]. specialize (Hle eq_refl). simpl in Hle. lia.
Defined.

(** X13. The availability endpoint answers 404 when the equipment row is
    missing, 400 'start and end parameters required' when a parameter is
    absent or empty, 400 'Invalid date format' when one does not parse,
    and 200 in every other case: the order of the two instants is not
    checked, so a reversed or empty window is answered with a number. *)
Theorem availability_status (fromisoformat : string → option Z) (pk : Z)
    (start end_ : option string) (db : DB) :
  let resp := availability fromisoformat pk start end_ db in
  (Equipment_objects db !! pk = None →
     resp = mkResponse NotFoundBody HTTP_404_NOT_FOUND)
  ∧ (is_Some (Equipment_objects db !! pk) →
     (start = None ∨ start = Some "" ∨ end_ = None ∨ end_ = Some "") →
     resp = mkResponse (ErrorBody "start and end parameters required")
              HTTP_400_BAD_REQUEST)
  ∧ (is_Some (Equipment_objects db !! pk) →
     ∀ s t, start = Some s → end_ = Some t → s ≠ "" → t ≠ "" →
       (fromisoformat s = None ∨ fromisoformat t = None →
          resp = mkResponse (ErrorBody "Invalid date format")
                   HTTP_400_BAD_REQUEST)
       ∧ (∀ a b, fromisoformat s = Some a → fromisoformat t = Some b →
            status_code resp = HTTP_200_OK)).
Proof.
  intros resp. subst resp. unfold availability. split; [by intros ->|].
  split.
  - intros [e ->] H.
    destruct H as [->|[->|[->| ->]]]; simpl; try done;
      destruct start as [s|]; simpl; try done;
      destruct (bool_decide (s = "")); done.
  - intros [e ->] s t -> -> Hs Ht. simpl.
    rewrite !bool_decide_eq_false_2 by done. simpl. split.
    + intros [-> | ->]; [done|]. by destruct (fromisoformat s).
    + by intros a b -> ->.
Qed.

Lemma availability_status_witness :
  let fromisoformat := λ s : string,
    if bool_decide (s = "day1") then Some 1
    else if bool_decide (s = "day3") then Some 3 else None in
  status_code (availability fromisoformat 1 (Some "day3") (Some "day1")
                 back_to_back) = HTTP_200_OK.
Proof.
  intros fromisoformat.
  destruct (availability_status fromisoformat 1 (Some "day3") (Some "day1")
              back_to_back) as (_ & _ & Hparse).
  destruct (Hparse (mk_is_Some _ _ eq_refl) "day3" "day1")
    as [_ Hok]; [reflexivity | reflexivity | discriminate | discriminate |].
  apply (Hok 3 1); reflexivity.
Defined.

(** X14. BorrowRequestSerializer.validate accepts a payload exactly when
    the row built from it passes BorrowRequest.clean and its start is not
    before the clock reading: the serializer adds the past-date check to
    the two checks of the model. *)
Theorem validate_is_clean_and_not_past (now request_user : Z)
    (inp : BorrowRequestInput) (e : Equipment) :
  let r := mkBorrowRequest request_user (in_equipment inp) (in_quantity inp)
             (in_purpose inp) pending now (in_borrow_from inp)
             (in_borrow_until inp) None None None None
             (in_rejection_reason inp) (in_notes inp) in
  BorrowRequestSerializer_validate now inp e = inr inp
  ↔ BorrowRequest_clean r e = None ∧ now ≤ in_borrow_from inp.
Proof.
  intros r. unfold BorrowRequestSerializer_validate, BorrowRequest_clean.
  simpl.
  destruct (Z.leb_spec (in_borrow_until inp) (in_borrow_from inp));
    [split; [done | by intros [? _]]|].
  destruct (Z.ltb_spec (in_borrow_from inp) now);
    destruct (Z.gtb_spec (in_quantity inp) (total_quantity e));
    split; try done; try (by intros [? _]); try (intros [_ ?]; lia).
Qed.

(* --------------------------------------------------------------------- *)
(* Permissions                                                           *)
(* --------------------------------------------------------------------- *)

(** X15. BorrowRequestViewSet.get_permissions asks for a staff or admin
    role exactly on the action names approve, reject, issue and return.
    The handler of returns is the method return_equipment, which is an
    action of the viewset while return is not, so an authenticated student
    passes the permission check of return_equipment (and of pending);
    an anonymous caller passes the check of update, partial_update and
    destroy only, whose class defines no view-level check. *)
Theorem borrow_request_permissions :
  (∀ u action,
     check_permissions (BorrowRequestViewSet_get_permissions action)
       (AuthenticatedUser u) = true
     ↔ (action ∈ ["approve"; "reject"; "issue"; "return"] →
        role u = admin ∨ role u = staff))
  ∧ (∀ action,
       check_permissions (BorrowRequestViewSet_get_permissions action)
         AnonymousUser = true
       ↔ action ∈ ["update"; "partial_update"; "destroy"])
  ∧ "return_equipment" ∈ BorrowRequestViewSet_actions
  ∧ ("return" ∉ BorrowRequestViewSet_actions)
  ∧ (∀ u, role u = student →
       check_permissions (BorrowRequestViewSet_get_permissions "return_equipment")
         (AuthenticatedUser u) = true
       ∧ check_permissions (BorrowRequestViewSet_get_permissions "pending")
           (AuthenticatedUser u) = true
       ∧ check_permissions (BorrowRequestViewSet_get_permissions "issue")
           (AuthenticatedUser u) = false).
Proof.
  split; [|split; [|split; [|split]]].
  - intros u action. unfold BorrowRequestViewSet_get_permissions.
    destruct (decide (action ∈ ["approve"; "reject"; "issue"; "return"]))
      as [Hin|Hin].
    + rewrite bool_decide_eq_true_2 by done. simpl. rewrite andb_true_r.
      rewrite bool_decide_eq_true.
      split; [intros H _; revert H | intros H; specialize (H Hin); revert H];
        rewrite !elem_of_cons, elem_of_nil; tauto.
    + rewrite bool_decide_eq_false_2 by done.
      destruct (bool_decide (action ∈ ["update"; "partial_update"; "destroy"]));
        simpl; tauto.
  - intros action. unfold BorrowRequestViewSet_get_permissions.
    destruct (decide (action ∈ ["approve"; "reject"; "issue"; "return"]))
      as [Hin|Hin].
    + rewrite bool_decide_eq_true_2 by done. simpl. split; [done|].
      intros Hup. exfalso. revert Hin Hup.
      rewrite !elem_of_cons, !elem_of_nil.
      intros [->|[->|[->|[->|[]]]]] [?|[?|[?|[]]]]; discriminate.
    + rewrite bool_decide_eq_false_2 by done.
      destruct (decide (action ∈ ["update"; "partial_update"; "destroy"])).
      * by rewrite bool_decide_eq_true_2.
      * by rewrite bool_decide_eq_false_2.
  - unfold BorrowRequestViewSet_actions. rewrite !elem_of_cons. tauto.
  - unfold BorrowRequestViewSet_actions. rewrite !elem_of_cons, elem_of_nil.
    intros H. repeat (destruct H as [H|H]; [discriminate|]). done.
  - intros [uid rl] Hrole. simpl in Hrole. subst rl. by vm_compute.
Qed.

Lemma borrow_request_permissions_witness :
  check_permissions (BorrowRequestViewSet_get_permissions "return_equipment")
    (AuthenticatedUser (mkUser 8 student)) = true
  ∧ check_permissions (BorrowRequestViewSet_get_permissions "approve")
      (AuthenticatedUser (mkUser 9 staff)) = true.
Proof.
  destruct borrow_request_permissions as (Hauth & _ & _ & _ & Hstudent).
  split.
  - destruct (Hstudent (mkUser 8 student)) as [Hret _]; [reflexivity|].
    exact Hret.
  - apply Hauth. intros _. right. reflexivity.
Defined.

(** X16. EquipmentViewSet.get_permissions: create, update, partial_update
    and destroy pass for an authenticated admin only; every other action,
    the availability query included, passes for any authenticated user and
    for no anonymous one. *)
Theorem equipment_permissions (action : string) (request_user : RequestUser) :
  check_permissions (EquipmentViewSet_get_permissions action) request_user = true
  ↔ ∃ u, request_user = AuthenticatedUser u
         ∧ (action ∈ ["create"; "update"; "partial_update"; "destroy"] →
            role u = admin).
Proof.
  unfold EquipmentViewSet_get_permissions.
  destruct (decide (action ∈ ["create"; "update"; "partial_update"; "destroy"]))
    as [Hin|Hin].
  - rewrite bool_decide_eq_true_2 by done. simpl. rewrite andb_true_r.
    destruct request_user as [|u]; simpl.
    + split; [done | by intros (u & ? & _)].
    + rewrite bool_decide_eq_true. split; [by exists u | ].
      intros (u' & [= <-] & H). by apply H.
  - rewrite bool_decide_eq_false_2 by done. simpl. rewrite andb_true_r.
    destruct request_user as [|u]; simpl.
    + split; [done | by intros (u & ? & _)].
    + split; [by exists u | done].
Qed.

Lemma equipment_permissions_witness :
  check_permissions (EquipmentViewSet_get_permissions "create")
    (AuthenticatedUser (mkUser 1 admin)) = true
  ∧ check_permissions (EquipmentViewSet_get_permissions "create")
      (AuthenticatedUser (mkUser 9 staff)) = false.
Proof.
  split.
  - apply equipment_permissions. exists (mkUser 1 admin).
    split; [reflexivity | intros _; reflexivity].
  - apply not_true_is_false. intros H.
    apply equipment_permissions in H as (u & [= <-] & Hadmin).
    assert (Hin : "create" ∈ ["create"; "update"; "partial_update"; "destroy"])
      by (apply elem_of_cons; by left).
    specialize (Hadmin Hin). discriminate.
Defined.

(* --------------------------------------------------------------------- *)
(* Querysets                                                             *)
(* --------------------------------------------------------------------- *)

Lemma is_overdue_true (now : Z) (r : BorrowRequest) :
  is_overdue now r = true ↔ status r = issued ∧ borrow_until r < now.
Proof.
  unfold is_overdue.
  rewrite andb_true_iff, bool_decide_eq_true, Z.gtb_gt.
  split; intros [? ?]; (split; [done | lia]).
Qed.

(** X17. The rows BorrowRequestViewSet.get_queryset yields are the stored
    requests (joined with their equipment row) that belong to the caller
    when the caller is a student, every one of them for staff and admin,
    and, when the overdue parameter is non-empty and lower-cases to
    'true', only those for which the model's is_overdue holds at the same
    clock reading; pending_requests yields the pending rows among them,
    so a student sees own pending requests only. *)
Theorem request_queryset_visibility (lower : string → string)
    (request_user : User) (overdue : option string) (now : Z) (db : DB)
    (pk : Z) (r : BorrowRequest) :
  let overdue_selected :=
    ∃ v, overdue = Some v ∧ v ≠ "" ∧ lower v = "true" in
  (BorrowRequestViewSet_get_queryset lower request_user overdue now db !! pk
     = Some r
   ↔ BorrowRequest_objects db !! pk = Some r
     ∧ is_Some (Equipment_objects db !! equipment r)
     ∧ (role request_user = student → user r = user_id request_user)
     ∧ (overdue_selected → is_overdue now r = true))
  ∧ (pending_requests lower request_user overdue now db !! pk = Some r →
     status r = pending
     ∧ (role request_user = student → user r = user_id request_user)).
Proof.
  intros overdue_selected.
  assert (Hsel : (match overdue with
                  | Some v => py_truthy v && bool_decide (lower v = "true")
                  | None => false
                  end) = true ↔ overdue_selected).
  { unfold overdue_selected, py_truthy. destruct overdue as [v|].
    - rewrite andb_true_iff, negb_true_iff, bool_decide_eq_false,
        bool_decide_eq_true.
      split; [intros [? ?]; by exists v | by intros (? & [= <-] & ? & ?)].
    - split; [done | by intros (? & ? & _)]. }
  assert (Hmain :
    BorrowRequestViewSet_get_queryset lower request_user overdue now db !! pk
      = Some r
    ↔ BorrowRequest_objects db !! pk = Some r
      ∧ is_Some (Equipment_objects db !! equipment r)
      ∧ (role request_user = student → user r = user_id request_user)
      ∧ (overdue_selected → is_overdue now r = true)).
  { unfold BorrowRequestViewSet_get_queryset.
    destruct (match overdue with
              | Some v => py_truthy v && bool_decide (lower v = "true")
              | None => false
              end) eqn:Hov;
      destruct (decide (role request_user = student)) as [Hrole|Hrole];
      rewrite ?(bool_decide_eq_true_2 _ Hrole),
        ?(bool_decide_eq_false_2 _ Hrole);
      rewrite ?map_lookup_filter_Some; simpl;
      rewrite is_overdue_true.
    - assert overdue_selected by by apply Hsel. tauto.
    - assert overdue_selected by by apply Hsel. tauto.
    - assert (¬ overdue_selected) by (intros H; by apply Hsel in H). tauto.
    - assert (¬ overdue_selected) by (intros H; by apply Hsel in H). tauto. }
  split; [exact Hmain|].
  unfold pending_requests. rewrite map_lookup_filter_Some. simpl.
  intros [Hq Hst]. apply Hmain in Hq. tauto.
Qed.

Lemma request_queryset_visibility_witness :
  let r := mkBorrowRequest 7 1 2 "lecture" pending 0 10 20
             None None None None "" "" in
  let db := mkDB {[1 := mkEquipment "projector" good 5 5 true 0 0]}
                 {[4 := r]} 2 5 in
  BorrowRequestViewSet_get_queryset (λ s, s) (mkUser 9 staff) None 0 db !! 4
  = Some r.
Proof.
  intros r db.
  destruct (request_queryset_visibility (λ s, s) (mkUser 9 staff) None 0 db
              4 r) as [Hiff _].
  apply Hiff. split; [reflexivity|]. split; [by eexists|].
  split; [simpl; discriminate|]. intros (v & Hv & _). discriminate.
Defined.

(** X18. EquipmentViewSet.get_queryset filters only when the available
    parameter lower-cases to 'true', and then keeps exactly the rows for
    which the model's is_available holds; with the parameter absent or
    with any other value, 'false' included, it yields every row. *)
Theorem equipment_queryset_available (lower : string → string)
    (available : option string) (db : DB) :
  (∀ v, available = Some v → lower v = "true" →
     ∀ pk e,
       EquipmentViewSet_get_queryset lower available db !! pk = Some e
       ↔ Equipment_objects db !! pk = Some e ∧ is_available e = true)
  ∧ ((available = None ∨ ∃ v, available = Some v ∧ lower v ≠ "true") →
     EquipmentViewSet_get_queryset lower available db = Equipment_objects db).
Proof.
  unfold EquipmentViewSet_get_queryset. split.
  - intros v -> Hv pk e. rewrite bool_decide_eq_true_2 by done.
    rewrite map_lookup_filter_Some. unfold is_available. simpl.
    rewrite andb_true_iff, Z.gtb_gt. tauto.
  - intros [->|(v & -> & Hv)]; [done|].
    by rewrite bool_decide_eq_false_2.
Qed.

Lemma equipment_queryset_available_witness :
  let db := mkDB {[1 := mkEquipment "projector" good 5 0 true 0 0]} ∅ 2 1 in
  EquipmentViewSet_get_queryset (λ s, s) (Some "false") db
  = Equipment_objects db.
Proof.
  intros db.
  destruct (equipment_queryset_available (λ s, s) (Some "false") db) as [_ Hall].
  apply Hall. right. exists "false". split; [reflexivity | discriminate].
Defined.

(* --------------------------------------------------------------------- *)
(* The update endpoint                                                   *)
(* --------------------------------------------------------------------- *)

(** X19. A PUT on a stored request validates the payload like a create
    but runs no availability check: with a valid payload it answers 200
    and overwrites equipment, quantity, purpose, interval, rejection
    reason and notes of the row, whatever its status and whatever else is
    booked, keeping requester, status and stamps and leaving the equipment
    table alone.  So it does not keep the capacity invariant: there is a
    database built through the API on which a valid PUT raises the
    quantity of an approved request and leaves more committed than the
    total. *)
Theorem update_skips_availability_check :
  (∀ db now pk inp r e0 e,
     BorrowRequest_objects db !! pk = Some r →
     Equipment_objects db !! equipment r = Some e0 →
     Equipment_objects db !! in_equipment inp = Some e →
     1 ≤ in_quantity inp ≤ total_quantity e →
     in_purpose inp ≠ "" →
     in_borrow_from inp < in_borrow_until inp →
     now ≤ in_borrow_from inp →
     let r' := mkBorrowRequest (user r) (in_equipment inp) (in_quantity inp)
                 (in_purpose inp) (status r) (requested_date r)
                 (in_borrow_from inp) (in_borrow_until inp)
                 (approved_by r) (approved_date r) (issued_date r)
                 (returned_date r) (in_rejection_reason inp) (in_notes inp) in
     BorrowRequestViewSet_update now pk inp db
     = (mkResponse (BorrowRequestBody pk r') HTTP_200_OK,
        mkDB (Equipment_objects db) (<[pk := r']> (BorrowRequest_objects db))
             (Equipment_next_pk db) (BorrowRequest_next_pk db)))
  ∧ (∃ db now pk inp,
       well_formed db
       ∧ status_code (BorrowRequestViewSet_update now pk inp db).1 = HTTP_200_OK
       ∧ ¬ capacity_invariant (BorrowRequestViewSet_update now pk inp db).2).
Proof.
  split.
  - intros db now pk inp r e0 e Hr He0 He Hq Hp Hint Hnow r'.
    unfold BorrowRequestViewSet_update.
    rewrite (get_object_Some db pk r e0 Hr He0).
    by rewrite (is_valid_accepts db now inp e He Hq Hp Hint Hnow).
  - exists (api_run
              [(0, CreateEquipment (mkEquipmentInput "projector" good 5 None true));
               (1, Lifecycle (CreateRequest 7
                                (mkBorrowRequestInput 1 3 "lecture" 10 20 "" "")));
               (2, Lifecycle (Approve 9 1));
               (3, Lifecycle (CreateRequest 8
                                (mkBorrowRequestInput 1 2 "seminar" 10 20 "" "")));
               (4, Lifecycle (Approve 9 2))]
              empty_db),
      5, 2, (mkBorrowRequestInput 1 5 "seminar" 10 20 "" "").
    split; [apply api_run_well_formed, empty_db_well_formed|].
    split; [by vm_compute|].
    intros Hinv.
    specialize (Hinv 1 (mkEquipment "projector" good 5 5 true 0 0) 10).
    vm_compute in Hinv. by apply Hinv.
Qed.

Lemma update_skips_availability_check_witness :
  let e := mkEquipment "projector" good 5 5 true 0 0 in
  let r1 := mkBorrowRequest 7 1 3 "lecture" approved 0 10 20
              (Some 9) (Some 1) None None "" "" in
  let r2 := mkBorrowRequest 8 1 2 "seminar" approved 0 10 20
              (Some 9) (Some 1) None None "" "" in
  let db := mkDB {[1 := e]} (<[2 := r2]> {[1 := r1]}) 2 3 in
  (quantity <$> BorrowRequest_objects
     (BorrowRequestViewSet_update 5 2
        (mkBorrowRequestInput 1 5 "seminar" 10 20 "" "") db).2 !! 2) = Some 5.
Proof.
  intros e r1 r2 db.
  destruct update_skips_availability_check as [Hput _].
  rewrite (Hput db 5 2 (mkBorrowRequestInput 1 5 "seminar" 10 20 "" "") r2 e e);
    [| reflexivity | reflexivity | reflexivity | simpl; lia | discriminate
     | simpl; lia | simpl; lia].
  simpl. by rewrite lookup_insert_eq.
Defined.

(* --------------------------------------------------------------------- *)
(* Lifecycle calls and the equipment table                               *)
(* --------------------------------------------------------------------- *)

Lemma writes_equipment (db db' : DB) (pk : Z) :
  writes db db' →
  match Equipment_objects db !! pk with
  | None => Equipment_objects db' !! pk = None
  | Some e => ∃ e', Equipment_objects db' !! pk = Some e' ∧ same_item e e'
  end.
Proof.
  intros Hw.
  assert (Hsame : match Equipment_objects db !! pk with
                  | None => Equipment_objects db !! pk = None
                  | Some e => ∃ e', Equipment_objects db !! pk = Some e'
                                    ∧ same_item e e'
                  end).
  { destruct (Equipment_objects db !! pk) as [e|] eqn:He; [|done].
    exists e. by repeat split. }
  destruct Hw as [|r Hst Hqr|now u k r e Hr He Hst Hc|now u k reason r Hr Hst
                  |now k r e Hr He Hst Hav|now k n r e Hr He Hst];
    simpl; try done.
  - destruct (decide (equipment r = pk)) as [<-|Hne].
    + rewrite He, lookup_insert_eq. eexists. split; [done|]. by repeat split.
    + by rewrite lookup_insert_ne.
  - destruct (decide (equipment r = pk)) as [<-|Hne].
    + rewrite He, lookup_insert_eq. eexists. split; [done|]. by repeat split.
    + by rewrite lookup_insert_ne.
Qed.

Lemma same_item_trans (e1 e2 e3 : Equipment) :
  same_item e1 e2 → same_item e2 e3 → same_item e1 e3.
Proof. unfold same_item. intros ? ?. intuition congruence. Qed.

(** X20. No sequence of lifecycle calls adds or removes an equipment row
    or changes the name, condition, total quantity, active flag or
    creation stamp of one: only the stock counter and the auto_now stamp
    move. *)
Theorem lifecycle_keeps_equipment (db : DB) (calls : list (Z * Call)) (pk : Z) :
  match Equipment_objects db !! pk with
  | None => Equipment_objects (run calls db) !! pk = None
  | Some e => ∃ e', Equipment_objects (run calls db) !! pk = Some e'
                    ∧ same_item e e'
  end.
Proof.
  revert db. induction calls as [|[now c] calls IH]; intros db; simpl.
  - destruct (Equipment_objects db !! pk) as [e|] eqn:He; [|done].
    exists e. by repeat split.
  - pose proof (writes_equipment db _ pk (handle_writes now c db)) as Hstep.
    specialize (IH (handle now c db).2).
    destruct (Equipment_objects db !! pk) as [e|].
    + destruct Hstep as (e1 & He1 & Hs1). rewrite He1 in IH.
      destruct IH as (e' & He' & Hs'). exists e'.
      split; [done | by eapply same_item_trans].
    + by rewrite Hstep in IH.
Qed.

(* --------------------------------------------------------------------- *)
(* create followed by approve                                            *)
(* --------------------------------------------------------------------- *)

Lemma create_success_inv (db : DB) (now request_user : Z)
    (inp : BorrowRequestInput) :
  status_code (BorrowRequestViewSet_create now request_user inp db).1
    = HTTP_201_CREATED →
  ∃ e,
    let r := mkBorrowRequest request_user (in_equipment inp) (in_quantity inp)
               (in_purpose inp) pending now (in_borrow_from inp)
               (in_borrow_until inp) None None None None
               (in_rejection_reason inp) (in_notes inp) in
    Equipment_objects db !! in_equipment inp = Some e
    ∧ check_availability db None r e = true
    ∧ BorrowRequestViewSet_create now request_user inp db
      = (mkResponse (BorrowRequestBody (BorrowRequest_next_pk db) r)
           HTTP_201_CREATED,
         mkDB (Equipment_objects db)
              (<[BorrowRequest_next_pk db := r]> (BorrowRequest_objects db))
              (Equipment_next_pk db) (BorrowRequest_next_pk db + 1)).
Proof.
  unfold BorrowRequestViewSet_create.
  destruct (BorrowRequestSerializer_is_valid db now inp) as [[]|[d e]] eqn:Hv;
    try discriminate.
  apply is_valid_inv in Hv as (-> & He & _).
  unfold BorrowRequestSerializer_create.
  destruct (check_availability _ _ _ _) eqn:Hc; simpl; [|discriminate].
  intros _. by exists e.
Qed.

(** The check of approve on a freshly created row is the check create
    made. *)
Lemma check_availability_after_create (db : DB) (r : BorrowRequest)
    (e : Equipment) :
  request_keys_fresh db →
  check_availability
    (mkDB (Equipment_objects db)
          (<[BorrowRequest_next_pk db := r]> (BorrowRequest_objects db))
          (Equipment_next_pk db) (BorrowRequest_next_pk db + 1))
    (Some (BorrowRequest_next_pk db)) r e
  = check_availability db None r e.
Proof.
  intros Hf. unfold check_availability. rewrite !check_availability_sum. simpl.
  assert (Hnew : BorrowRequest_objects db !! BorrowRequest_next_pk db = None).
  { destruct (BorrowRequest_objects db !! BorrowRequest_next_pk db) eqn:Hn;
      [|done].
    specialize (Hf _ (mk_is_Some _ _ Hn)). lia. }
  rewrite table_sum_insert_fresh by done.
  unfold weight at 1. simpl. rewrite Z.eqb_refl, andb_false_r.
  rewrite (table_sum_ext _
    (λ row, overlapping_lookup (equipment r) (borrow_from r) (borrow_until r) row
            && true)); [done|].
  intros k x Hk. simpl. f_equal.
  apply negb_true_iff, Z.eqb_neq. intros ->. congruence.
Qed.

(** X21. With the request sequence ahead of the stored keys, a request
    that create has just accepted can be approved at once: the approve
    call on the key create returned, on the database create left, answers
    200 and the row is approved. *)
Theorem create_then_approve (db : DB) (now now' request_user approver : Z)
    (inp : BorrowRequestInput) :
  request_keys_fresh db →
  status_code (BorrowRequestViewSet_create now request_user inp db).1
    = HTTP_201_CREATED →
  let db1 := (BorrowRequestViewSet_create now request_user inp db).2 in
  let pk := BorrowRequest_next_pk db in
  data (BorrowRequestViewSet_create now request_user inp db).1
    = BorrowRequestBody pk
        (mkBorrowRequest request_user (in_equipment inp) (in_quantity inp)
           (in_purpose inp) pending now (in_borrow_from inp)
           (in_borrow_until inp) None None None None
           (in_rejection_reason inp) (in_notes inp))
  ∧ status_code (approve now' approver pk db1).1 = HTTP_200_OK
  ∧ (status <$> BorrowRequest_objects (approve now' approver pk db1).2 !! pk)
    = Some approved.
Proof.
  intros Hf Hok db1 pk. subst db1 pk.
  destruct (create_success_inv db now request_user inp Hok) as (e & He & Hc & ->).
  simpl. split; [done|].
  erewrite approve_success; simpl.
  - by rewrite lookup_insert_eq.
  - apply lookup_insert_eq.
  - exact He.
  - done.
  - by rewrite check_availability_after_create.
Qed.

Lemma create_then_approve_witness :
  let e := mkEquipment "projector" good 5 5 true 0 0 in
  let held := mkBorrowRequest 7 1 3 "lecture" approved 0 10 30
                (Some 9) (Some 1) None None "" "" in
  let db := mkDB {[1 := e]} {[4 := held]} 2 5 in
  let inp := mkBorrowRequestInput 1 2 "seminar" 20 40 "" "" in
  status_code
    (approve 3 9 5 (BorrowRequestViewSet_create 2 8 inp db).2).1 = HTTP_200_OK.
Proof.
  intros e held db inp.
  destruct (create_then_approve db 2 3 8 9 inp) as (_ & Hok & _).
  - intros k [x Hx]. unfold db in Hx. simpl in Hx.
    apply lookup_singleton_Some in Hx as [<- _]. simpl. lia.
  - vm_compute. reflexivity.
  - exact Hok.
Defined.

(* --------------------------------------------------------------------- *)
(* issue followed by return_equipment                                    *)
(* --------------------------------------------------------------------- *)

(** A create, approve or reject call leaves the equipment table alone and,
    with the request sequence ahead of the stored keys, every request that
    is not pending. *)
Lemma quiet_call_keeps (now : Z) (c : Call) (db : DB) :
  stock_call c = false →
  Equipment_objects (handle now c db).2 = Equipment_objects db
  ∧ (request_keys_fresh db →
     ∀ pk r, BorrowRequest_objects db !! pk = Some r →
             status r ≠ pending →
             BorrowRequest_objects (handle now c db).2 !! pk = Some r).
Proof.
  intros Hc. destruct c as [u inp|u k|u k reason|k|u k n]; simpl in *;
    try discriminate.
  - unfold BorrowRequestViewSet_create.
    destruct (BorrowRequestSerializer_is_valid db now inp) as [err|[d e]];
      [done|].
    unfold BorrowRequestSerializer_create.
    destruct (check_availability _ _ _ _); simpl; [|done].
    split; [done|]. intros Hf pk r Hr _.
    rewrite lookup_insert_ne; [done|].
    intros <-. specialize (Hf _ (mk_is_Some _ _ Hr)). lia.
  - destruct (get_object db k) as [[r0 e0]|] eqn:Hg;
      [|unfold approve; by rewrite Hg].
    apply get_object_inv in Hg as [Hr0 He0].
    destruct (decide (status r0 = pending
                      ∧ check_availability db (Some k) r0 e0 = true))
      as [[Hst Hchk]|Hno].
    + rewrite (approve_success db now u k r0 e0 Hr0 He0 Hst Hchk). simpl.
      split; [done|]. intros _ pk r Hr Hnp.
      rewrite lookup_insert_ne; [done|]. intros <-. congruence.
    + by rewrite (approve_failure db now u k r0 e0 Hr0 He0 Hno).
  - destruct (get_object db k) as [[r0 e0]|] eqn:Hg;
      [|unfold reject; by rewrite Hg].
    apply get_object_inv in Hg as [Hr0 He0].
    destruct (decide (status r0 = pending)) as [Hst|Hst].
    + rewrite (reject_success db now u k reason r0 e0 Hr0 He0 Hst). simpl.
      split; [done|]. intros _ pk r Hr Hnp.
      rewrite lookup_insert_ne; [done|]. intros <-. congruence.
    + by rewrite (reject_failure db now u k reason r0 e0 Hr0 He0 Hst).
Qed.

Lemma quiet_run_keeps (calls : list (Z * Call)) (db : DB) :
  Forall (λ nc, stock_call nc.2 = false) calls →
  request_keys_fresh db →
  Equipment_objects (run calls db) = Equipment_objects db
  ∧ ∀ pk r, BorrowRequest_objects db !! pk = Some r →
            status r ≠ pending →
            BorrowRequest_objects (run calls db) !! pk = Some r.
Proof.
  revert db. induction calls as [|[now c] calls IH]; intros db Hq Hf; simpl;
    [done|].
  apply Forall_cons in Hq as [Hc Hq]. simpl in Hc.
  destruct (quiet_call_keeps now c db Hc) as [HE HR].
  destruct (IH (handle now c db).2 Hq) as [HE' HR'].
  { eapply writes_request_keys_fresh; [apply handle_writes | done]. }
  split; [congruence|]. intros pk r Hr Hnp.
  apply HR'; [by apply HR | done].
Qed.

(** C7 (as the code has it). For an equipment row with
    available = v <= total and an approved request of quantity q with
    1 <= q <= v, in a database whose request sequence is ahead of the
    stored keys: issue succeeds and leaves the counter at v - q; after any
    calls in between that are neither an issue nor a return (creations,
    approvals and rejections), the return of that request by a caller who
    has it in the queryset succeeds, and the counter is v again. *)
Theorem issue_then_return_restores_counter (db : DB) (now1 now2 pk : Z)
    (request_user : User) (notes_arg : string) (between : list (Z * Call))
    (r : BorrowRequest) (e : Equipment) (v : Z) :
  BorrowRequest_objects db !! pk = Some r →
  Equipment_objects db !! equipment r = Some e →
  status r = approved →
  available_quantity e = v →
  v >= quantity r →
  v ≤ total_quantity e →
  1 ≤ quantity r →
  request_keys_fresh db →
  visible_to request_user r →
  Forall (λ nc, stock_call nc.2 = false) between →
  let after_issue := issue now1 pk db in
  let before_return := run between after_issue.2 in
  let after_return :=
    return_equipment now2 request_user pk notes_arg before_return in
  status_code after_issue.1 = HTTP_200_OK
  ∧ (available_quantity <$> Equipment_objects after_issue.2 !! equipment r)
    = Some (v - quantity r)
  ∧ status_code after_return.1 = HTTP_200_OK
  ∧ (available_quantity <$> Equipment_objects after_return.2 !! equipment r)
    = Some v.
Proof.
  intros Hr He Hst Hv Hge Hle Hq Hf Hvis Hquiet
    after_issue before_return after_return.
  subst after_return before_return after_issue.
  pose proof (handle_writes now1 (Issue pk) db) as Hw. simpl in Hw.
  pose proof (writes_request_keys_fresh _ _ Hw Hf) as Hf1.
  destruct (quiet_run_keeps between (issue now1 pk db).2 Hquiet Hf1)
    as [HE HR].
  revert Hw Hf1 HE HR.
  rewrite (issue_success db now1 pk r e Hr He Hst) by lia. simpl.
  intros _ _ HE HR.
  rewrite lookup_insert_eq. simpl.
  split; [done|]. split; [f_equal; lia|].
  set (r1 := set_issued_date (Some now1) (set_status issued r)) in *.
  set (e1 := set_updated_at now1 _) in *.
  rewrite (return_success _ now2 request_user pk notes_arg r1 e1).
  - simpl. rewrite lookup_insert_eq. simpl. split; [done|]. f_equal. lia.
  - apply HR; [apply lookup_insert_eq | simpl; discriminate].
  - rewrite HE. simpl. apply lookup_insert_eq.
  - exact Hvis.
  - left. reflexivity.
Qed.

Lemma issue_then_return_restores_counter_witness :
  let e := mkEquipment "projector" good 5 5 true 0 0 in
  let r := mkBorrowRequest 7 1 2 "lecture" approved 0 10 20
             (Some 9) (Some 1) None None "" "" in
  let db := mkDB {[1 := e]} {[4 := r]} 2 5 in
  let between :=
    [(4, CreateRequest 8 (mkBorrowRequestInput 1 3 "seminar" 30 40 "" ""));
     (5, Approve 9 5)] in
  (available_quantity <$> Equipment_objects (issue 3 4 db).2 !! 1) = Some 3
  ∧ (available_quantity <$>
       Equipment_objects
         (return_equipment 30 (mkUser 7 student) 4 ""
            (run between (issue 3 4 db).2)).2 !! 1)
    = Some 5.
Proof.
  intros e r db between.
  destruct (issue_then_return_restores_counter db 3 30 4 (mkUser 7 student) ""
              between r e 5) as (_ & Hmid & _ & Hend);
    [reflexivity | reflexivity | reflexivity | reflexivity
    | simpl; lia | simpl; lia | simpl; lia | | by intros _ | |].
  - intros k [x Hx]. unfold db in Hx. simpl in Hx.
    apply lookup_singleton_Some in Hx as [<- _]. simpl. lia.
  - unfold between. repeat constructor.
  - split; [exact Hmid | exact Hend].
Defined.

(** C7 as stated fails: with the return of another request between the
    issue and the return, and no other issue, the counter that stood at 3
    ends at 5. *)
Lemma issue_then_return_counterexample :
  let e := mkEquipment "projector" good 5 3 true 0 0 in
  let r4 := mkBorrowRequest 7 1 2 "lecture" approved 0 10 20
              (Some 9) (Some 1) None None "" "" in
  let r5 := mkBorrowRequest 8 1 2 "seminar" issued 0 10 20
              (Some 9) (Some 1) (Some 2) None "" "" in
  let db := mkDB {[1 := e]} (<[5 := r5]> {[4 := r4]}) 2 6 in
  let clerk := mkUser 9 staff in
  let after_issue := issue 3 4 db in
  let other_return := return_equipment 4 clerk 5 "" after_issue.2 in
  let after_return := return_equipment 5 clerk 4 "" other_return.2 in
  BorrowRequest_objects db !! 4 = Some r4
  ∧ status r4 = approved
  ∧ available_quantity e = 3
  ∧ 3 >= quantity r4
  ∧ status_code after_issue.1 = HTTP_200_OK
  ∧ status_code after_return.1 = HTTP_200_OK
  ∧ (available_quantity <$> Equipment_objects after_return.2 !! 1) = Some 5
  ∧ (available_quantity <$> Equipment_objects after_return.2 !! 1) ≠ Some 3.
Proof.
  repeat split; try reflexivity; try (by vm_compute).
Qed.

(** The lookup of return_equipment is the lookup in the queryset that
    get_queryset yields for the caller on a call without the overdue
    parameter. *)
Lemma get_object_as_queryset (lower : string → string) (request_user : User)
    (now : Z) (db : DB) (pk : Z) (r : BorrowRequest) (e : Equipment) :
  get_object_as request_user db pk = Some (r, e)
  ↔ BorrowRequestViewSet_get_queryset lower request_user None now db !! pk
      = Some r
    ∧ Equipment_objects db !! equipment r = Some e.
Proof.
  unfold BorrowRequestViewSet_get_queryset. split.
  - intros H. apply get_object_as_inv in H as (Hr & He & Hv). split; [|done].
    destruct (decide (role request_user = student)) as [Hrole|Hrole].
    + rewrite bool_decide_eq_true_2 by done.
      rewrite !map_lookup_filter_Some. simpl. by eauto.
    + rewrite bool_decide_eq_false_2 by done.
      rewrite map_lookup_filter_Some. simpl. by eauto.
  - intros [Hq He].
    destruct (decide (role request_user = student)) as [Hrole|Hrole].
    + rewrite bool_decide_eq_true_2 in Hq by done.
      rewrite !map_lookup_filter_Some in Hq. simpl in Hq.
      destruct Hq as [[Hr _] Hu]. apply get_object_as_Some; try done.
      by intros _.
    + rewrite bool_decide_eq_false_2 in Hq by done.
      rewrite map_lookup_filter_Some in Hq. simpl in Hq.
      destruct Hq as [Hr _]. apply get_object_as_Some; try done.
      by intros ?.
Qed.
